(** * helpers/sql.js: the SET-clause builder [sqlForPartialUpdate]

    A shallow embedding of [sqlForPartialUpdate] over an explicit JavaScript
    heap.  The function receives a reference to the data object and, when it
    is not omitted, a reference to the mapping object; it reads them,
    allocates its own arrays and its result object, and either returns a
    reference to that result or throws.  The heap is threaded through every
    step so that what the call leaves untouched can be stated and proved. *)

From Stdlib Require Import ZArith String Ascii Decimal DecimalString Lia.
From Stdlib Require DecimalPos DecimalZ.
From stdpp Require Import base option list gmap strings.

Local Open Scope Z_scope.
Local Open Scope nat_scope.

(** ** Values and heap *)

Definition loc := positive.

(** JavaScript values.  [JNum n] is the Number with the integer value [n]
    (the range of safe integers; both zeros are [JNum 0]).  [JRef l] is a
    reference to the object or array stored at [l]: two values [JRef l] with
    the same [l] are aliases of one object. *)
Inductive jsval : Type :=
| JUndefined
| JNull
| JBool (b : bool)
| JNum (n : Z)
| JStr (s : string)
| JRef (l : loc).
Arguments JRef l%_positive.

(** A heap cell.  [Obj props] is a plain object (one written as a literal,
    or parsed from JSON), given by its own enumerable string-keyed properties
    in the order in which [Object.keys] enumerates them.  Its prototype is
    the built-in [Object.prototype], see [inherited_name] below.  [Arr elems]
    is an array. *)
Inductive cell : Type :=
| Obj (props : list (string * jsval))
| Arr (elems : list jsval).

Abbreviation heap := (gmap loc cell).

(** Modelled from the spec: the class [BadRequestError] comes from
    [../expressError], which is not part of the sources; the spec calls it
    the [InvalidInput] error kind, raised when there is no data to update.
    An exception is modelled as a tagged value and constructing it has no
    effect on the heap.  [TypeError] is the built-in error of the
    language. *)
Inductive exn : Type :=
| BadRequestError (message : string)
| TypeError.

(** How a computation ends: normally with a value, abruptly with a thrown
    exception, or [Unmodelled] when it leaves the fragment of the language
    modelled here (a dangling reference, string conversion of an object,
    property access on a non-object primitive or on an array). *)
Inductive outcome (A : Type) : Type :=
| Normal (a : A) (h : heap)
| Abrupt (e : exn) (h : heap)
| Unmodelled.
Arguments Normal {A} a h.
Arguments Abrupt {A} e h.
Arguments Unmodelled {A}.

(** ** The heap monad *)

Definition M (A : Type) : Type := heap → outcome A.

Definition ret {A} (a : A) : M A := λ h, Normal a h.

Definition bind {A B} (c : M A) (k : A → M B) : M B :=
  λ h, match c h with
       | Normal a h' => k a h'
       | Abrupt e h' => Abrupt e h'
       | Unmodelled => Unmodelled
       end.

Notation "'let*' x ':=' c 'in' k" := (bind c (λ x, k))
  (at level 10, x binder, c at level 100, k at level 200).

Definition throw {A} (e : exn) : M A := λ h, Abrupt e h.

Definition unmodelled {A} : M A := λ _, Unmodelled.

Definition lift {A} (o : option A) : M A :=
  match o with Some a => ret a | None => unmodelled end.

(** Allocation picks an address the heap does not use yet. *)
Definition alloc (c : cell) : M loc :=
  λ h, let l := fresh (dom h) in Normal l (<[l := c]> h).

Definition deref (l : loc) : M cell :=
  λ h, match h !! l with Some c => Normal c h | None => Unmodelled end.

(** ** Conversions of the language *)

Definition ToBoolean (v : jsval) : bool :=
  match v with
  | JUndefined | JNull => false
  | JBool b => b
  | JNum n => negb (n =? 0)%Z
  | JStr s => match s with EmptyString => false | String _ _ => true end
  | JRef _ => true
  end.

Definition decimal (n : Z) : string := NilZero.string_of_int (Z.to_int n).

(** [ToString] of a primitive; an object would run its own [toString].  A
    Number is printed as its decimal numeral, which is how the language
    prints the safe integers that [JNum] stands for (see [in_safe_range]). *)
Definition ToString (v : jsval) : option string :=
  match v with
  | JUndefined => Some "undefined"
  | JNull => Some "null"
  | JBool true => Some "true"
  | JBool false => Some "false"
  | JNum n => Some (decimal n)
  | JStr s => Some s
  | JRef _ => None
  end.

(** [a || b] *)
Definition or_else (a b : jsval) : jsval := if ToBoolean a then a else b.

(** ** Property access and the built-ins the function calls *)

Fixpoint own_lookup (k : string) (props : list (string * jsval)) : option jsval :=
  match props with
  | [] => None
  | (k', v) :: rest => if String.eqb k' k then Some v else own_lookup k rest
  end.

(** The names of the properties of the built-in [Object.prototype], which
    every plain object inherits. *)
Definition inherited_name (k : string) : bool :=
  bool_decide (k ∈ ["constructor"; "hasOwnProperty"; "isPrototypeOf";
                    "propertyIsEnumerable"; "toLocaleString"; "toString";
                    "valueOf"; "__proto__"; "__defineGetter__";
                    "__defineSetter__"; "__lookupGetter__"; "__lookupSetter__"]).

(** What the lookup of [k] finds on a plain object: an own property, else
    [undefined], unless [k] names an inherited property.  The lookup then
    finds a built-in function (the prototype itself for [__proto__]), whose
    text as a string is left to the implementation: [None]. *)
Definition lookup_result (props : list (string * jsval)) (k : string) : option jsval :=
  match own_lookup k props with
  | Some v => Some v
  | None => if inherited_name k then None else Some JUndefined
  end.

(** [base[key]]: a [TypeError] on [undefined] and [null], the result of the
    lookup on a plain object. *)
Definition Get (base : jsval) (key : jsval) : M jsval :=
  match base with
  | JUndefined | JNull => throw TypeError
  | JRef l =>
      let* c := deref l in
      match c with
      | Obj props =>
          let* k := lift (ToString key) in
          lift (lookup_result props k)
      | Arr _ => unmodelled
      end
  | _ => unmodelled
  end.

(** [Object.keys(o)] and [Object.values(o)]: a fresh array each. *)
Definition Object_keys (o : jsval) : M loc :=
  match o with
  | JUndefined | JNull => throw TypeError
  | JRef l =>
      let* c := deref l in
      match c with
      | Obj props => alloc (Arr (map (λ p, JStr p.1) props))
      | Arr _ => unmodelled
      end
  | _ => unmodelled
  end.

Definition Object_values (o : jsval) : M loc :=
  match o with
  | JUndefined | JNull => throw TypeError
  | JRef l =>
      let* c := deref l in
      match c with
      | Obj props => alloc (Arr (map snd props))
      | Arr _ => unmodelled
      end
  | _ => unmodelled
  end.

Definition Array_length (a : loc) : M nat :=
  let* c := deref a in
  match c with
  | Arr elems => ret (length elems)
  | Obj _ => unmodelled
  end.

(** The callback of [map] is called on each element with its index, from left
    to right. *)
Fixpoint map_from {A B} (f : A → nat → M B) (idx : nat) (elems : list A) : M (list B) :=
  match elems with
  | [] => ret []
  | x :: rest =>
      let* y := f x idx in
      let* ys := map_from f (S idx) rest in
      ret (y :: ys)
  end.

(** [a.map(f)]: the results go to a fresh array, which enters the heap once
    it is filled. *)
Definition Array_map (f : jsval → nat → M jsval) (a : loc) : M loc :=
  let* c := deref a in
  match c with
  | Arr elems =>
      let* ys := map_from f 0 elems in
      alloc (Arr ys)
  | Obj _ => unmodelled
  end.

(** [join] prints [undefined] and [null] elements as the empty string. *)
Definition join_elem (v : jsval) : option string :=
  match v with
  | JUndefined | JNull => Some EmptyString
  | _ => ToString v
  end.

Definition Array_join (sep : string) (a : loc) : M string :=
  let* c := deref a in
  match c with
  | Arr elems =>
      let* ss := lift (mapM join_elem elems) in
      ret (String.concat sep ss)
  | Obj _ => unmodelled
  end.

(** ** The function *)

Definition dquote : string := String "034"%char EmptyString.

(** The arrow function handed to [map]: the column is
    [jsToSql[colName] || colName], put between double quotes and followed by
    [=$] and [idx + 1]. *)
Definition set_fragment (jsToSql : jsval) (colName : jsval) (idx : nat) : M jsval :=
  let* mapped := Get jsToSql colName in
  let* col := lift (ToString (or_else mapped colName)) in
  let* pos := lift (ToString (JNum (Z.of_nat idx + 1)%Z)) in
  ret (JStr (dquote +:+ col +:+ dquote +:+ "=$" +:+ pos)).

Definition sqlForPartialUpdate (dataToUpdate jsToSql : jsval) : M loc :=
  let* keys := Object_keys dataToUpdate in
  let* n := Array_length keys in
  if Nat.eqb n 0 then throw (BadRequestError "No data") else
  let* cols := Array_map (set_fragment jsToSql) keys in
  let* setCols := Array_join ", " cols in
  let* values := Object_values dataToUpdate in
  alloc (Obj [("setCols", JStr setCols); ("values", JRef values)]).

(** ** Reading a result back *)

Record ClauseResult : Type := { setCols : string; values : list jsval }.

(** The [{ setCols, values }] object at [r], with the array behind [values]
    read out of the heap. *)
Definition read_result (h : heap) (r : loc) : option ClauseResult :=
  match h !! r with
  | Some (Obj props) =>
      match own_lookup "setCols" props, own_lookup "values" props with
      | Some (JStr s), Some (JRef a) =>
          match h !! a with
          | Some (Arr vs) => Some {| setCols := s; values := vs |}
          | _ => None
          end
      | _, _ => None
      end
  | _ => None
  end.

(** ** What the result is made of *)

(** The column the callback settles on for the key [k], given the property
    table of the mapping object. *)
Definition column (mprops : list (string * jsval)) (k : string) : option string :=
  match lookup_result mprops k with
  | Some mapped => ToString (or_else mapped (JStr k))
  | None => None
  end.

Definition placeholder (pos : nat) : string := "$" +:+ decimal (Z.of_nat pos).

Definition fragment (col : string) (pos : nat) : string :=
  dquote +:+ col +:+ dquote +:+ "=" +:+ placeholder pos.

Definition fragments_from (idx : nat) (names : list string) : list string :=
  imap (λ i col, fragment col (idx + i + 1)) names.

(** A value that is not a reference. *)
Definition primitive (v : jsval) : bool :=
  match v with JRef _ => false | _ => true end.

(** Splitting a string at the separator of [join], a comma and a space, the
    way [split] of the language cuts: at every occurrence, from the left.
    [cur] is the piece being read. *)
Definition is_separator (c c' : ascii) : bool :=
  Ascii.eqb c ","%char && Ascii.eqb c' " "%char.

Fixpoint split_from (cur : string) (s : string) : list string :=
  match s with
  | EmptyString => [cur]
  | String c rest =>
      match rest with
      | String c' rest' =>
          if is_separator c c' then cur :: split_from EmptyString rest'
          else split_from (cur +:+ String c EmptyString) rest
      | EmptyString => split_from (cur +:+ String c EmptyString) rest
      end
  end.

Definition split_comma_space (s : string) : list string := split_from EmptyString s.

(** Does [s] contain the separator? *)
Fixpoint has_separator (s : string) : bool :=
  match s with
  | EmptyString => false
  | String c rest =>
      match rest with
      | String c' _ => is_separator c c' || has_separator rest
      | EmptyString => false
      end
  end.

(** What the call returns, read back from the heap it leaves; [None] when
    it does not return. *)
Definition returned (h : heap) (dataToUpdate jsToSql : jsval) : option ClauseResult :=
  match sqlForPartialUpdate dataToUpdate jsToSql h with
  | Normal r h' => read_result h' r
  | _ => None
  end.

(** A property table all of whose values are primitives, as a table of
    column names is. *)
Definition primitive_values (mprops : list (string * jsval)) : Prop :=
  Forall (λ p, primitive p.2 = true) mprops.

(** A property table none of whose keys is the name of an inherited
    property. *)
Definition ordinary_keys (props : list (string * jsval)) : Prop :=
  Forall (λ p, inherited_name p.1 = false) props.

(** A string that does not begin with a space. *)
Definition no_leading_space (s : string) : Prop :=
  match s with
  | EmptyString => True
  | String c _ => c ≠ " "%char
  end.

(** ** Effects and observations *)

(** [c] keeps every cell of the heap it starts from: whatever [c] does to
    the heap, it does at addresses that were unused. *)
Definition preserves {A} (c : M A) : Prop :=
  ∀ h, match c h with
       | Normal _ h' | Abrupt _ h' => h ⊆ h'
       | Unmodelled => True
       end.

(** What a caller can observe of a call. *)
Inductive observation : Type :=
| Returned (res : option ClauseResult)
| Thrown (e : exn)
| NotModelled.

Definition observe (o : outcome loc) : observation :=
  match o with
  | Normal r h' => Returned (read_result h' r)
  | Abrupt e _ => Thrown e
  | Unmodelled => NotModelled
  end.

(** Two mapping arguments that the function cannot tell apart: both omitted
    (or both [null]), or two plain objects with the same properties. *)
Definition same_mapping (h1 : heap) (j1 : jsval) (h2 : heap) (j2 : jsval) : Prop :=
  (j1 = j2 ∧ (j1 = JUndefined ∨ j1 = JNull)) ∨
  ∃ m1 m2 mprops1 mprops2,
    j1 = JRef m1 ∧ j2 = JRef m2 ∧
    h1 !! m1 = Some (Obj mprops1) ∧ h2 !! m2 = Some (Obj mprops2) ∧
    ∀ k, own_lookup k mprops1 = own_lookup k mprops2.

(** The heap a call leaves behind, when it ends. *)
Definition heap_after (o : outcome loc) (h : heap) : heap :=
  match o with
  | Normal _ h' | Abrupt _ h' => h'
  | Unmodelled => h
  end.

(** ** Heaps of the examples

    In each heap the data object is at address 1 and the mapping object at
    address 2. *)

Definition heap_of (data mapping : list (string * jsval)) : heap :=
  <[1%positive := Obj data]> (<[2%positive := Obj mapping]> ∅).

Definition data_aliya : list (string * jsval) :=
  [("firstName", JStr "Aliya"); ("age", JNum 32)].
Definition mapping_aliya : list (string * jsval) :=
  [("firstName", JStr "first_name")].

Definition data_age : list (string * jsval) := [("age", JNum 45)].

Definition data_company : list (string * jsval) :=
  [("numEmployees", JNum 10); ("logoUrl", JStr "x.png")].
Definition mapping_company : list (string * jsval) :=
  [("numEmployees", JStr "num_employees"); ("logoUrl", JStr "logo_url")].

(** A mapping with falsy entries: the empty string, zero, [null], [false]. *)
Definition data_falsy : list (string * jsval) :=
  [("a", JNum 1); ("b", JNum 2); ("c", JNum 3); ("d", JNum 4); ("e", JNum 5)].
Definition mapping_falsy : list (string * jsval) :=
  [("a", JStr EmptyString); ("b", JNum 0); ("c", JNull); ("d", JBool false);
   ("e", JStr "col_e")].

(** A mapping that gives the empty string as column name. *)
Definition mapping_blank : list (string * jsval) := [("age", JStr EmptyString)].

Definition heap_aliya : heap := heap_of data_aliya mapping_aliya.
Definition heap_age : heap := heap_of data_age [].
Definition heap_no_data : heap := heap_of [] mapping_aliya.
Definition heap_company : heap := heap_of data_company mapping_company.
Definition heap_falsy : heap := heap_of data_falsy mapping_falsy.
Definition heap_blank : heap := heap_of data_age mapping_blank.
Definition heap_alias : heap := heap_of mapping_aliya [].

(** The heap after a first call in [heap_aliya]. *)
Definition heap_aliya_again : heap :=
  heap_after (sqlForPartialUpdate (JRef 1) (JRef 2) heap_aliya) heap_aliya.

(** Heaps with a third object, at address 3. *)
Definition heap_with (data mapping other : list (string * jsval)) : heap :=
  <[3%positive := Obj other]> (heap_of data mapping).


(** [mapping_aliya] with an entry for a key the data does not have. *)
Definition mapping_aliya_more : list (string * jsval) :=
  [("lastName", JStr "last_name"); ("firstName", JStr "first_name")].

(** A mapping with truthy entries that are not strings. *)
Definition mapping_odd : list (string * jsval) :=
  [("firstName", JNum 7); ("age", JBool true)].

Definition heap_two_mappings : heap :=
  heap_with data_aliya mapping_aliya mapping_aliya_more.
Definition heap_odd : heap := heap_of data_aliya mapping_odd.

(** A data object with a value that is itself an object, stored at 3. *)
Definition data_nested : list (string * jsval) := [("address", JRef 3)].
Definition cell_city : list (string * jsval) := [("city", JStr "Oslo")].
Definition heap_nested : heap := heap_with data_nested [] cell_city.
Definition heap_nested_after : heap :=
  heap_after (sqlForPartialUpdate (JRef 1) (JRef 2) heap_nested) heap_nested.

(** ** The order of the properties of an object

    [Object.keys] does not enumerate in insertion order throughout: keys
    that are array indices come first, in ascending numeric order, and the
    other keys follow in the order in which they were created. *)

(** An array index is the canonical decimal numeral of an integer from 0 to
    [2^32 - 2]: no sign, no leading zero. *)
Definition array_index (k : string) : option N :=
  match NilZero.uint_of_string k with
  | Some u =>
      let n := N.of_uint u in
      if String.eqb (decimal (Z.of_N n)) k && (n <? 4294967295)%N
      then Some n else None
  | None => None
  end.

(** The place of a new array index [n] among the properties: after the
    smaller indices, before everything else. *)
Fixpoint insert_index (n : N) (k : string) (v : jsval)
    (props : list (string * jsval)) : list (string * jsval) :=
  match props with
  | [] => [(k, v)]
  | (k', v') :: rest =>
      match array_index k' with
      | Some n' =>
          if (n' <? n)%N then (k', v') :: insert_index n k v rest
          else (k, v) :: props
      | None => (k, v) :: props
      end
  end.

(** Writing to a key the object already has keeps the place of the key. *)
Fixpoint overwrite (k : string) (v : jsval)
    (props : list (string * jsval)) : list (string * jsval) :=
  match props with
  | [] => []
  | (k', v') :: rest =>
      if String.eqb k' k then (k', v) :: rest else (k', v') :: overwrite k v rest
  end.

(** [o[k] = v] on the property table of a plain object. *)
Definition add_property (props : list (string * jsval)) (entry : string * jsval)
    : list (string * jsval) :=
  match own_lookup entry.1 props with
  | Some _ => overwrite entry.1 entry.2 props
  | None =>
      match array_index entry.1 with
      | Some n => insert_index n entry.1 entry.2 props
      | None => props ++ [entry]
      end
  end.

(** The property table, in the order of [Object.keys], of the object that
    is written as a literal with these entries, or built by assigning them
    in this order. *)
Definition object_of (entries : list (string * jsval)) : list (string * jsval) :=
  fold_left add_property entries [].

(** The entries [{b: 1, 2: 2, 1: 3}], in the order they are written. *)
Definition entries_mixed : list (string * jsval) :=
  [("b", JNum 1); ("2", JNum 2); ("1", JNum 3)].
Definition heap_mixed : heap := heap_of (object_of entries_mixed) [].

(** A Number value of the model is in the range where [ToString] prints it
    as the language does: the safe integers, from [-(2^53 - 1)] to
    [2^53 - 1]. *)
Definition in_safe_range (v : jsval) : bool :=
  match v with
  | JNum n => (Z.abs n <=? 9007199254740991)%Z
  | _ => true
  end.

Definition safe_values (mprops : list (string * jsval)) : Prop :=
  Forall (λ p, in_safe_range p.2 = true) mprops.

(** ** Steps of the monad *)

Section steps.
Context {A B : Type}.

Lemma bind_Normal (c : M A) (k : A → M B) h a h' :
  c h = Normal a h' → bind c k h = k a h'.
Proof. unfold bind. by intros ->. Qed.

Lemma bind_Abrupt (c : M A) (k : A → M B) h e h' :
  c h = Abrupt e h' → bind c k h = Abrupt e h'.
Proof. unfold bind. by intros ->. Qed.

Lemma bind_Unmodelled (c : M A) (k : A → M B) h :
  c h = Unmodelled → bind c k h = Unmodelled.
Proof. unfold bind. by intros ->. Qed.
End steps.

Lemma deref_Some l c (h : heap) : h !! l = Some c → deref l h = Normal c h.
Proof. unfold deref. by intros ->. Qed.

Lemma fresh_unused (h : heap) : h !! fresh (dom h) = None.
Proof. apply not_elem_of_dom, is_fresh. Qed.

Lemma lookup_alloc_new c (h : heap) : <[fresh (dom h) := c]> h !! fresh (dom h) = Some c.
Proof. apply lookup_insert_eq. Qed.

Lemma lookup_alloc_old l c c' (h : heap) :
  h !! l = Some c → <[fresh (dom h) := c']> h !! l = Some c.
Proof.
  intros Hl. rewrite lookup_insert_ne; [done|].
  intros <-. rewrite fresh_unused in Hl. discriminate.
Qed.

Lemma alloc_extends c (h : heap) : h ⊆ <[fresh (dom h) := c]> h.
Proof. apply insert_subseteq, fresh_unused. Qed.

(** ** The callback and [map] over a plain mapping object *)

Lemma Get_plain m mprops k (h : heap) :
  h !! m = Some (Obj mprops) →
  Get (JRef m) (JStr k) h = lift (lookup_result mprops k) h.
Proof.
  intros Hm. unfold Get.
  rewrite (bind_Normal _ _ _ _ _ (deref_Some _ _ _ Hm)). reflexivity.
Qed.

Lemma set_fragment_plain m mprops k idx (h : heap) :
  h !! m = Some (Obj mprops) →
  set_fragment (JRef m) (JStr k) idx h =
    match column mprops k with
    | Some col => Normal (JStr (fragment col (idx + 1))) h
    | None => Unmodelled
    end.
Proof.
  intros Hm. unfold set_fragment, column.
  unfold bind at 1. rewrite (Get_plain _ _ k _ Hm).
  destruct (lookup_result mprops k) as [mapped|]; [|reflexivity].
  cbn [lift ret]. destruct (ToString _) as [col|]; [|reflexivity].
  cbn. unfold fragment, placeholder, ret.
  replace (Z.of_nat (idx + 1)) with (Z.of_nat idx + 1)%Z by lia. reflexivity.
Qed.

Lemma fragments_from_cons idx col names :
  fragments_from idx (col :: names) = fragment col (idx + 1) :: fragments_from (S idx) names.
Proof.
  unfold fragments_from. cbn. f_equal; [f_equal; lia|].
  apply imap_ext. intros i x _. cbn. f_equal. lia.
Qed.

Lemma map_from_plain m mprops ks idx (h : heap) :
  h !! m = Some (Obj mprops) →
  map_from (set_fragment (JRef m)) idx (JStr <$> ks) h =
    match mapM (column mprops) ks with
    | Some names => Normal (JStr <$> fragments_from idx names) h
    | None => Unmodelled
    end.
Proof.
  intros Hm. revert idx. induction ks as [|k ks IH]; intros idx; [reflexivity|].
  cbn [fmap list_fmap map_from]. unfold bind at 1.
  rewrite (set_fragment_plain _ _ k idx _ Hm). cbn [mapM mbind option_bind].
  destruct (column mprops k) as [col|]; [|reflexivity].
  unfold bind at 1. rewrite IH.
  destruct (mapM (column mprops) ks) as [names|]; [|reflexivity].
  cbn [mbind option_bind mret option_ret].
  unfold ret. by rewrite fragments_from_cons.
Qed.

Lemma mapM_join_elem_JStr (ss : list string) : mapM join_elem (JStr <$> ss) = Some ss.
Proof. induction ss as [|s ss IH]; [reflexivity|]. cbn. cbn in IH. by rewrite IH. Qed.

(** ** The built-ins on well-formed arguments *)

Lemma Object_keys_plain d props (h : heap) :
  h !! d = Some (Obj props) →
  Object_keys (JRef d) h =
    Normal (fresh (dom h)) (<[fresh (dom h) := Arr (JStr <$> props.*1)]> h).
Proof.
  intros Hd. unfold Object_keys.
  rewrite (bind_Normal _ _ _ _ _ (deref_Some _ _ _ Hd)).
  unfold alloc. by rewrite <-list_fmap_compose.
Qed.

Lemma Object_values_plain d props (h : heap) :
  h !! d = Some (Obj props) →
  Object_values (JRef d) h =
    Normal (fresh (dom h)) (<[fresh (dom h) := Arr props.*2]> h).
Proof.
  intros Hd. unfold Object_values.
  by rewrite (bind_Normal _ _ _ _ _ (deref_Some _ _ _ Hd)).
Qed.

Lemma Array_length_arr a elems (h : heap) :
  h !! a = Some (Arr elems) → Array_length a h = Normal (length elems) h.
Proof.
  intros Ha. unfold Array_length.
  by rewrite (bind_Normal _ _ _ _ _ (deref_Some _ _ _ Ha)).
Qed.

Lemma Array_map_arr f a elems (h : heap) :
  h !! a = Some (Arr elems) →
  Array_map f a h =
    match map_from f 0 elems h with
    | Normal ys h' => Normal (fresh (dom h')) (<[fresh (dom h') := Arr ys]> h')
    | Abrupt e h' => Abrupt e h'
    | Unmodelled => Unmodelled
    end.
Proof.
  intros Ha. unfold Array_map.
  by rewrite (bind_Normal _ _ _ _ _ (deref_Some _ _ _ Ha)).
Qed.

Lemma Array_join_strings sep a ss (h : heap) :
  h !! a = Some (Arr (JStr <$> ss)) →
  Array_join sep a h = Normal (String.concat sep ss) h.
Proof.
  intros Ha. unfold Array_join.
  rewrite (bind_Normal _ _ _ _ _ (deref_Some _ _ _ Ha)).
  by rewrite mapM_join_elem_JStr.
Qed.

(** ** The whole call *)

(** With no key the call throws right after [Object.keys], whatever the
    second argument is. *)
Lemma sqlForPartialUpdate_empty d jsToSql (h : heap) :
  h !! d = Some (Obj []) →
  sqlForPartialUpdate (JRef d) jsToSql h =
    Abrupt (BadRequestError "No data") (<[fresh (dom h) := Arr []]> h).
Proof.
  intros Hd. unfold sqlForPartialUpdate.
  rewrite (bind_Normal _ _ _ _ _ (Object_keys_plain _ _ _ Hd)).
  by rewrite (bind_Normal _ _ _ _ _ (Array_length_arr _ _ _ (lookup_alloc_new _ _))).
Qed.

(** The call on a data object with at least one key, after its first two
    lines. *)
Lemma sqlForPartialUpdate_nonempty d props jsToSql (h : heap) :
  h !! d = Some (Obj props) → props ≠ [] →
  sqlForPartialUpdate (JRef d) jsToSql h =
    (let* cols := Array_map (set_fragment jsToSql) (fresh (dom h)) in
     let* setCols := Array_join ", " cols in
     let* values := Object_values (JRef d) in
     alloc (Obj [("setCols", JStr setCols); ("values", JRef values)]))
    (<[fresh (dom h) := Arr (JStr <$> props.*1)]> h).
Proof.
  intros Hd Hne. unfold sqlForPartialUpdate.
  rewrite (bind_Normal _ _ _ _ _ (Object_keys_plain _ _ _ Hd)).
  rewrite (bind_Normal _ _ _ _ _ (Array_length_arr _ _ _ (lookup_alloc_new _ _))).
  rewrite !length_fmap. destruct props; [done|reflexivity].
Qed.

(** On a plain mapping object whose looked-up values convert to strings,
    the call returns, and the result reads back as the joined fragments and
    the values of the data object. *)
Lemma sqlForPartialUpdate_plain d m props mprops names (h : heap) :
  h !! d = Some (Obj props) → props ≠ [] →
  h !! m = Some (Obj mprops) →
  mapM (column mprops) props.*1 = Some names →
  ∃ r h',
    sqlForPartialUpdate (JRef d) (JRef m) h = Normal r h' ∧
    read_result h' r =
      Some {| setCols := String.concat ", " (fragments_from 0 names);
              values := props.*2 |}.
Proof.
  intros Hd Hne Hm Hnames.
  rewrite (sqlForPartialUpdate_nonempty _ _ _ _ Hd Hne).
  set (h1 := <[fresh (dom h) := Arr (JStr <$> props.*1)]> h).
  assert (Hd1 : h1 !! d = Some (Obj props)) by by apply lookup_alloc_old.
  assert (Hm1 : h1 !! m = Some (Obj mprops)) by by apply lookup_alloc_old.
  assert (Hk1 : h1 !! fresh (dom h) = Some (Arr (JStr <$> props.*1)))
    by apply lookup_alloc_new.
  unfold bind at 1.
  rewrite (Array_map_arr _ _ _ _ Hk1).
  rewrite (map_from_plain _ _ _ _ _ Hm1), Hnames.
  set (h2 := <[fresh (dom h1) := _]> h1).
  assert (Hd2 : h2 !! d = Some (Obj props)) by by apply lookup_alloc_old.
  assert (Hc2 : h2 !! fresh (dom h1) = Some (Arr (JStr <$> fragments_from 0 names)))
    by apply lookup_alloc_new.
  rewrite (bind_Normal _ _ _ _ _ (Array_join_strings ", " _ _ _ Hc2)).
  rewrite (bind_Normal _ _ _ _ _ (Object_values_plain _ _ _ Hd2)).
  set (h3 := <[fresh (dom h2) := _]> h2).
  unfold alloc. eexists _, _. split; [reflexivity|].
  unfold read_result. rewrite lookup_alloc_new. cbn.
  assert (Hv : h3 !! fresh (dom h2) = Some (Arr props.*2)) by apply lookup_alloc_new.
  by rewrite (lookup_alloc_old _ _ _ _ Hv).
Qed.

Lemma bind_Normal_inv {A B} (c : M A) (k : A → M B) h b h' :
  bind c k h = Normal b h' → ∃ a h1, c h = Normal a h1 ∧ k a h1 = Normal b h'.
Proof. unfold bind. destruct (c h) as [a h1| |]; [eauto|done..]. Qed.

Lemma set_fragment_Normal_inv jsToSql x idx (h : heap) y h' :
  set_fragment jsToSql x idx h = Normal y h' →
  ∃ m mprops, jsToSql = JRef m ∧ h !! m = Some (Obj mprops).
Proof.
  intros (mapped & h1 & Hget & _)%bind_Normal_inv.
  destruct jsToSql as [| | | | |m]; try discriminate.
  apply bind_Normal_inv in Hget as (c & h2 & Hc & Hrest).
  unfold deref in Hc. destruct (h !! m) as [[mprops|]|] eqn:Hm; [eauto| |done].
  by simplify_eq.
Qed.

Lemma map_from_Normal_first {A B} (f : A → nat → M B) idx x rest (h : heap) ys h' :
  map_from f idx (x :: rest) h = Normal ys h' → ∃ y h1, f x idx h = Normal y h1.
Proof. intros (y & h1 & Hy & _)%bind_Normal_inv. eauto. Qed.

(** With the mapping [undefined] (omitted) or [null], the first property
    access of the callback throws. *)
Lemma sqlForPartialUpdate_absent d props jsToSql (h : heap) :
  h !! d = Some (Obj props) → props ≠ [] →
  jsToSql = JUndefined ∨ jsToSql = JNull →
  sqlForPartialUpdate (JRef d) jsToSql h =
    Abrupt TypeError (<[fresh (dom h) := Arr (JStr <$> props.*1)]> h).
Proof.
  intros Hd Hne Habs.
  rewrite (sqlForPartialUpdate_nonempty _ _ _ _ Hd Hne).
  set (h1 := <[fresh (dom h) := Arr (JStr <$> props.*1)]> h).
  assert (Hk1 : h1 !! fresh (dom h) = Some (Arr (JStr <$> props.*1)))
    by apply lookup_alloc_new.
  unfold bind at 1. rewrite (Array_map_arr _ _ _ _ Hk1).
  destruct props as [|[k v] props]; [done|].
  by destruct Habs as [-> | ->].
Qed.

(** A normal return tells what the arguments were. *)
Lemma sqlForPartialUpdate_Normal_inv d props jsToSql (h : heap) r h' :
  h !! d = Some (Obj props) →
  sqlForPartialUpdate (JRef d) jsToSql h = Normal r h' →
  props ≠ [] ∧
  ∃ m mprops names,
    jsToSql = JRef m ∧ h !! m = Some (Obj mprops) ∧
    mapM (column mprops) props.*1 = Some names ∧
    read_result h' r =
      Some {| setCols := String.concat ", " (fragments_from 0 names);
              values := props.*2 |}.
Proof.
  intros Hd Hrun.
  assert (Hne : props ≠ []).
  { intros ->. by rewrite (sqlForPartialUpdate_empty _ _ _ Hd) in Hrun. }
  split; [done|].
  pose proof Hrun as Hrun'.
  rewrite (sqlForPartialUpdate_nonempty _ _ _ _ Hd Hne) in Hrun'.
  set (h1 := <[fresh (dom h) := Arr (JStr <$> props.*1)]> h) in *.
  assert (Hk1 : h1 !! fresh (dom h) = Some (Arr (JStr <$> props.*1)))
    by apply lookup_alloc_new.
  apply bind_Normal_inv in Hrun' as (cols & h2 & Hmap & _).
  rewrite (Array_map_arr _ _ _ _ Hk1) in Hmap.
  destruct (map_from _ 0 _ h1) as [ys h2'| |] eqn:Hys; [|done..].
  assert (∃ m mprops, jsToSql = JRef m ∧ h1 !! m = Some (Obj mprops))
    as (m & mprops & -> & Hm1).
  { destruct props as [|[k v] props]; [done|].
    apply map_from_Normal_first in Hys as (y & h3 & Hy).
    by apply set_fragment_Normal_inv in Hy. }
  assert (Hm : h !! m = Some (Obj mprops)).
  { destruct (decide (m = fresh (dom h))) as [->|Hfresh].
    - rewrite Hk1 in Hm1. discriminate.
    - unfold h1 in Hm1. by rewrite lookup_insert_ne in Hm1. }
  rewrite (map_from_plain _ _ _ _ _ Hm1) in Hys.
  destruct (mapM (column mprops) props.*1) as [names|] eqn:Hnames; [|done].
  destruct (sqlForPartialUpdate_plain _ _ _ _ _ _ Hd Hne Hm Hnames)
    as (r0 & h0 & Hrun0 & Hread).
  rewrite Hrun0 in Hrun. injection Hrun as <- <-.
  by exists m, mprops, names.
Qed.

(** ** Splitting what [join] has joined *)

Lemma append_cons c (s t : string) : String c s +:+ t = String c (s +:+ t).
Proof. reflexivity. Qed.

Lemma append_empty_l (s : string) : EmptyString +:+ s = s.
Proof. reflexivity. Qed.

Lemma append_empty_r (s : string) : s +:+ EmptyString = s.
Proof. induction s as [|c s IH]; [reflexivity|]. by rewrite append_cons, IH. Qed.

Lemma append_assoc (s t u : string) : (s +:+ t) +:+ u = s +:+ t +:+ u.
Proof. induction s as [|c s IH]; [reflexivity|]. by rewrite !append_cons, IH. Qed.

Lemma is_separator_space c c' : c' ≠ " "%char → is_separator c c' = false.
Proof.
  intros Hc'. unfold is_separator.
  apply andb_false_iff. right. by apply Ascii.eqb_neq.
Qed.

(** A piece without separator is read through, as long as the separator
    cannot start in the piece and end in what follows. *)
Lemma split_from_app p : ∀ cur tail,
  has_separator p = false → no_leading_space tail →
  split_from cur (p +:+ tail) = split_from (cur +:+ p) tail.
Proof.
  induction p as [|c p IH]; intros cur tail Hp Htail.
  { by rewrite append_empty_r. }
  replace (cur +:+ String c p) with ((cur +:+ String c EmptyString) +:+ p)
    by by rewrite append_assoc.
  destruct p as [|c' p].
  - rewrite append_empty_r. change (String c EmptyString +:+ tail) with (String c tail).
    destruct tail as [|t tail]; [done|].
    cbn in Htail. cbn. by rewrite is_separator_space.
  - cbn in Hp. apply orb_false_iff in Hp as [Hsep Hp].
    rewrite <-(IH _ tail Hp Htail). rewrite !append_cons. cbn. by rewrite Hsep.
Qed.

Lemma has_separator_app p : ∀ tail,
  has_separator p = false → no_leading_space tail →
  has_separator (p +:+ tail) = has_separator tail.
Proof.
  induction p as [|c p IH]; intros tail Hp Htail; [reflexivity|].
  destruct p as [|c' p].
  - change (String c EmptyString +:+ tail) with (String c tail).
    destruct tail as [|t tail]; [done|].
    cbn in Htail. cbn. by rewrite is_separator_space.
  - cbn in Hp. apply orb_false_iff in Hp as [Hsep Hp].
    rewrite <-(IH tail Hp Htail). rewrite !append_cons. cbn. by rewrite Hsep.
Qed.

Lemma has_separator_digits (u : Decimal.uint) :
  has_separator (NilEmpty.string_of_uint u) = false.
Proof.
  induction u as [|u IH|u IH|u IH|u IH|u IH|u IH|u IH|u IH|u IH|u IH];
    [reflexivity|..]; cbn [NilEmpty.string_of_uint];
    destruct (NilEmpty.string_of_uint u); done.
Qed.

Lemma has_separator_cons c (s : string) :
  c ≠ ","%char → has_separator (String c s) = has_separator s.
Proof.
  intros Hc. destruct s as [|c' s]; [reflexivity|].
  cbn. unfold is_separator. by apply Ascii.eqb_neq in Hc as ->.
Qed.

Lemma has_separator_decimal n : has_separator (decimal n) = false.
Proof.
  assert (Hu : ∀ u, has_separator (NilZero.string_of_uint u) = false).
  { intros u. destruct u; try reflexivity; apply (has_separator_digits (_ u)). }
  unfold decimal.
  destruct (Z.to_int n) as [u|u]; cbn [NilZero.string_of_int]; [done|].
  by rewrite has_separator_cons.
Qed.

(** A fragment contains the separator only if its column name does. *)
Lemma has_separator_fragment col pos :
  has_separator col = false → has_separator (fragment col pos) = false.
Proof.
  intros Hcol. unfold fragment, placeholder, dquote.
  rewrite !append_cons, !append_empty_l.
  rewrite has_separator_cons by done.
  rewrite has_separator_app by done.
  rewrite !has_separator_cons by done.
  apply has_separator_decimal.
Qed.

Lemma split_from_fragments fr frs :
  Forall (λ f, has_separator f = false) (fr :: frs) →
  split_comma_space (String.concat ", " (fr :: frs)) = fr :: frs.
Proof.
  unfold split_comma_space. revert fr.
  induction frs as [|fr' frs IH]; intros fr [Hfr Hfrs]%Forall_cons.
  - cbn. rewrite <-(append_empty_r fr) at 1.
    by rewrite split_from_app.
  - change (String.concat ", " (fr :: fr' :: frs))
      with (fr +:+ String "," (String " " (String.concat ", " (fr' :: frs)))).
    rewrite split_from_app by done.
    change (split_from (EmptyString +:+ fr) (String "," (String " " ?s)))
      with (fr :: split_from EmptyString s).
    by rewrite (IH _ Hfrs).
Qed.

(** ** The column of a key *)

Lemma column_truthy mprops k v :
  own_lookup k mprops = Some v → ToBoolean v = true → column mprops k = ToString v.
Proof. unfold column, lookup_result, or_else. intros -> Hv. by rewrite Hv. Qed.

Lemma column_falsy mprops k v :
  own_lookup k mprops = Some v → ToBoolean v = false → column mprops k = Some k.
Proof. unfold column, lookup_result, or_else. intros -> Hv. by rewrite Hv. Qed.

Lemma column_absent mprops k :
  own_lookup k mprops = None → inherited_name k = false → column mprops k = Some k.
Proof. unfold column, lookup_result. by intros -> ->. Qed.

(** A column that is resolved is what the lookup finds, or else the key. *)
Lemma column_Some mprops k col :
  column mprops k = Some col →
  ∃ mapped,
    lookup_result mprops k = Some mapped ∧
    ToString (or_else mapped (JStr k)) = Some col.
Proof. unfold column. destruct (lookup_result mprops k); [eauto|done]. Qed.

Lemma own_lookup_primitive mprops k v :
  primitive_values mprops → own_lookup k mprops = Some v → primitive v = true.
Proof.
  induction 1 as [|[k' v'] mprops Hv' _ IH]; [done|]. cbn.
  destruct (String.eqb k' k); [|done]. by intros [= <-].
Qed.

Lemma column_primitive mprops k :
  primitive_values mprops → inherited_name k = false → is_Some (column mprops k).
Proof.
  intros Hprim Hord. destruct (own_lookup k mprops) as [v|] eqn:Hk.
  - destruct (ToBoolean v) eqn:Hv.
    + rewrite (column_truthy _ _ _ Hk Hv).
      pose proof (own_lookup_primitive _ _ _ Hprim Hk). by destruct v as [| |[]| | |].
    + by rewrite (column_falsy _ _ _ Hk Hv).
  - by rewrite column_absent.
Qed.

Lemma columns_primitive mprops (props : list (string * jsval)) :
  primitive_values mprops → ordinary_keys props →
  is_Some (mapM (column mprops) props.*1).
Proof.
  intros Hprim Hord. apply mapM_is_Some, Forall_fmap.
  eapply Forall_impl; [exact Hord|].
  intros [k v] Hk. by apply column_primitive.
Qed.

Lemma column_ext mprops mprops' k :
  own_lookup k mprops = own_lookup k mprops' → column mprops k = column mprops' k.
Proof. unfold column, lookup_result. by intros ->. Qed.

(** The fragment at the position of a key. *)
Lemma fragment_at mprops (props : list (string * jsval)) names i k v :
  mapM (column mprops) props.*1 = Some names →
  props !! i = Some (k, v) →
  ∃ col, column mprops k = Some col ∧
         fragments_from 0 names !! i = Some (fragment col (i + 1)).
Proof.
  intros Hnames Hi. apply mapM_Some in Hnames.
  assert (Hk : props.*1 !! i = Some k) by by rewrite list_lookup_fmap, Hi.
  destruct (Forall2_lookup_l _ _ _ _ _ Hnames Hk) as (col & Hcol & Hc).
  exists col. split; [done|].
  unfold fragments_from. by rewrite list_lookup_imap, Hcol.
Qed.

Lemma length_fragments_from idx names : length (fragments_from idx names) = length names.
Proof. apply length_imap. Qed.

Lemma length_columns mprops (ks names : list string) :
  mapM (column mprops) ks = Some names → length names = length ks.
Proof. intros Hnames. symmetry. by apply (length_mapM (column mprops)). Qed.

(** ** What [returned] gives *)

Lemma returned_inv d props jsToSql (h : heap) res :
  h !! d = Some (Obj props) →
  returned h (JRef d) jsToSql = Some res →
  props ≠ [] ∧
  ∃ m mprops names,
    jsToSql = JRef m ∧ h !! m = Some (Obj mprops) ∧
    mapM (column mprops) props.*1 = Some names ∧
    res = {| setCols := String.concat ", " (fragments_from 0 names);
             values := props.*2 |}.
Proof.
  intros Hd. unfold returned.
  destruct (sqlForPartialUpdate _ _ h) as [r h'| |] eqn:Hrun; [|done..].
  intros Hread.
  destruct (sqlForPartialUpdate_Normal_inv _ _ _ _ _ _ Hd Hrun)
    as (Hne & m & mprops & names & -> & Hm & Hnames & Hres).
  split; [done|]. exists m, mprops, names. by simplify_eq.
Qed.

Lemma returned_plain d m props mprops (h : heap) :
  h !! d = Some (Obj props) → props ≠ [] → ordinary_keys props →
  h !! m = Some (Obj mprops) → primitive_values mprops →
  ∃ names,
    mapM (column mprops) props.*1 = Some names ∧
    returned h (JRef d) (JRef m) =
      Some {| setCols := String.concat ", " (fragments_from 0 names);
              values := props.*2 |}.
Proof.
  intros Hd Hne Hord Hm Hprim.
  destruct (columns_primitive mprops props Hprim Hord) as [names Hnames].
  destruct (sqlForPartialUpdate_plain _ _ _ _ _ _ Hd Hne Hm Hnames)
    as (r & h' & Hrun & Hread).
  exists names. split; [done|]. unfold returned. by rewrite Hrun.
Qed.

(** ** Computations that only add to the heap *)

Create HintDb preserves.

Lemma preserves_ret {A} (a : A) : preserves (ret a).
Proof. intros h. cbn. reflexivity. Qed.

Lemma preserves_throw {A} e : preserves (@throw A e).
Proof. intros h. cbn. reflexivity. Qed.

Lemma preserves_unmodelled {A} : preserves (@unmodelled A).
Proof. intros h. done. Qed.

Lemma preserves_lift {A} (o : option A) : preserves (lift o).
Proof. destruct o; [apply preserves_ret|apply preserves_unmodelled]. Qed.

Lemma preserves_alloc c : preserves (alloc c).
Proof. intros h. apply alloc_extends. Qed.

Lemma preserves_deref l : preserves (deref l).
Proof. intros h. unfold deref. destruct (h !! l); [reflexivity|done]. Qed.

Lemma preserves_bind {A B} (c : M A) (k : A → M B) :
  preserves c → (∀ a, preserves (k a)) → preserves (bind c k).
Proof.
  intros Hc Hk h. unfold bind. specialize (Hc h).
  destruct (c h) as [a h1|e h1|]; [|done..].
  specialize (Hk a h1). destruct (k a h1) as [b h2|e h2|]; [..|done]; by etrans.
Qed.

#[export] Hint Resolve preserves_ret preserves_throw preserves_unmodelled
  preserves_lift preserves_alloc preserves_deref preserves_bind : preserves.

Ltac preserves_cell :=
  intros; match goal with |- preserves (match ?c with _ => _ end) => destruct c end;
  auto with preserves.

Lemma preserves_Get base key : preserves (Get base key).
Proof.
  destruct base; cbn; auto with preserves.
  apply preserves_bind; [auto with preserves|]. preserves_cell.
Qed.

Lemma preserves_Object_keys o : preserves (Object_keys o).
Proof.
  destruct o; cbn; auto with preserves.
  apply preserves_bind; [auto with preserves|]. preserves_cell.
Qed.

Lemma preserves_Object_values o : preserves (Object_values o).
Proof.
  destruct o; cbn; auto with preserves.
  apply preserves_bind; [auto with preserves|]. preserves_cell.
Qed.

Lemma preserves_Array_length a : preserves (Array_length a).
Proof. apply preserves_bind; [auto with preserves|]. preserves_cell. Qed.

Lemma preserves_map_from {A B} (f : A → nat → M B) elems :
  (∀ x idx, preserves (f x idx)) → ∀ idx, preserves (map_from f idx elems).
Proof.
  intros Hf. induction elems as [|x elems IH]; intros idx; cbn;
    auto 6 with preserves.
Qed.

Lemma preserves_Array_map f a :
  (∀ x idx, preserves (f x idx)) → preserves (Array_map f a).
Proof.
  intros Hf. apply preserves_bind; [auto with preserves|]. preserves_cell.
  apply preserves_bind; [by apply preserves_map_from|auto with preserves].
Qed.

Lemma preserves_Array_join sep a : preserves (Array_join sep a).
Proof. apply preserves_bind; [auto with preserves|]. preserves_cell. Qed.

Lemma preserves_set_fragment jsToSql colName idx :
  preserves (set_fragment jsToSql colName idx).
Proof.
  unfold set_fragment. apply preserves_bind; [apply preserves_Get|].
  auto 6 with preserves.
Qed.

#[export] Hint Resolve preserves_Object_keys preserves_Object_values
  preserves_Array_length preserves_Array_map preserves_Array_join
  preserves_set_fragment : preserves.

Lemma preserves_sqlForPartialUpdate dataToUpdate jsToSql :
  preserves (sqlForPartialUpdate dataToUpdate jsToSql).
Proof.
  unfold sqlForPartialUpdate.
  apply preserves_bind; [auto with preserves|]. intros keys.
  apply preserves_bind; [auto with preserves|]. intros n.
  destruct (Nat.eqb n 0); auto 8 with preserves.
Qed.

(** ** Calls that cannot be told apart *)

Lemma sqlForPartialUpdate_unprintable d m props mprops (h : heap) :
  h !! d = Some (Obj props) → props ≠ [] →
  h !! m = Some (Obj mprops) →
  mapM (column mprops) props.*1 = None →
  sqlForPartialUpdate (JRef d) (JRef m) h = Unmodelled.
Proof.
  intros Hd Hne Hm Hnames.
  rewrite (sqlForPartialUpdate_nonempty _ _ _ _ Hd Hne).
  set (h1 := <[fresh (dom h) := Arr (JStr <$> props.*1)]> h).
  assert (Hm1 : h1 !! m = Some (Obj mprops)) by by apply lookup_alloc_old.
  assert (Hk1 : h1 !! fresh (dom h) = Some (Arr (JStr <$> props.*1)))
    by apply lookup_alloc_new.
  unfold bind at 1. rewrite (Array_map_arr _ _ _ _ Hk1).
  by rewrite (map_from_plain _ _ _ _ _ Hm1), Hnames.
Qed.

Lemma observe_plain d m props mprops (h : heap) :
  h !! d = Some (Obj props) → props ≠ [] →
  h !! m = Some (Obj mprops) →
  observe (sqlForPartialUpdate (JRef d) (JRef m) h) =
    match mapM (column mprops) props.*1 with
    | Some names =>
        Returned (Some {| setCols := String.concat ", " (fragments_from 0 names);
                          values := props.*2 |})
    | None => NotModelled
    end.
Proof.
  intros Hd Hne Hm.
  destruct (mapM (column mprops) props.*1) as [names|] eqn:Hnames.
  - destruct (sqlForPartialUpdate_plain _ _ _ _ _ _ Hd Hne Hm Hnames)
      as (r & h' & -> & Hread).
    cbn. by rewrite Hread.
  - by rewrite (sqlForPartialUpdate_unprintable _ _ _ _ _ Hd Hne Hm Hnames).
Qed.

Lemma columns_ext mprops mprops' (ks : list string) :
  (∀ k, own_lookup k mprops = own_lookup k mprops') →
  mapM (column mprops) ks = mapM (column mprops') ks.
Proof.
  intros Hext. induction ks as [|k ks IH]; [reflexivity|].
  cbn. by rewrite (column_ext _ _ _ (Hext k)), IH.
Qed.

(** ** Every well-formed call ends *)

(** On a plain data object with ordinary keys and a mapping that is omitted
    or a plain object with primitive values, the call ends in one of three
    ways. *)
Lemma sqlForPartialUpdate_ends d props jsToSql (h : heap) :
  h !! d = Some (Obj props) → ordinary_keys props →
  (jsToSql = JUndefined ∨
   ∃ m mprops, jsToSql = JRef m ∧ h !! m = Some (Obj mprops) ∧ primitive_values mprops) →
  match observe (sqlForPartialUpdate (JRef d) jsToSql h) with
  | Returned res => props ≠ [] ∧ jsToSql ≠ JUndefined ∧ is_Some res
  | Thrown (BadRequestError _) => props = []
  | Thrown TypeError => props ≠ [] ∧ jsToSql = JUndefined
  | NotModelled => False
  end.
Proof.
  intros Hd Hord Hmap. destruct (decide (props = [])) as [->|Hne].
  { by rewrite (sqlForPartialUpdate_empty _ _ _ Hd). }
  destruct Hmap as [->|(m & mprops & -> & Hm & Hprim)].
  { by rewrite (sqlForPartialUpdate_absent _ _ _ _ Hd Hne); [|left]. }
  rewrite (observe_plain _ _ _ _ _ Hd Hne Hm).
  by destruct (columns_primitive mprops props Hprim Hord) as [names ->].
Qed.

(** ** The scenarios of the specification *)

Example scenario_aliya :
  returned heap_aliya (JRef 1) (JRef 2) =
    Some {| setCols := dquote +:+ "first_name" +:+ dquote +:+ "=$1, " +:+
                       dquote +:+ "age" +:+ dquote +:+ "=$2";
            values := [JStr "Aliya"; JNum 32] |}.
Proof. vm_compute. reflexivity. Qed.

Example scenario_age :
  returned heap_age (JRef 1) (JRef 2) =
    Some {| setCols := dquote +:+ "age" +:+ dquote +:+ "=$1";
            values := [JNum 45] |}.
Proof. vm_compute. reflexivity. Qed.

Example scenario_no_data :
  observe (sqlForPartialUpdate (JRef 1) (JRef 2) heap_no_data) =
    Thrown (BadRequestError "No data").
Proof. vm_compute. reflexivity. Qed.

Example scenario_company :
  returned heap_company (JRef 1) (JRef 2) =
    Some {| setCols := dquote +:+ "num_employees" +:+ dquote +:+ "=$1, " +:+
                       dquote +:+ "logo_url" +:+ dquote +:+ "=$2";
            values := [JNum 10; JStr "x.png"] |}.
Proof. vm_compute. reflexivity. Qed.

(** The data object may also serve as its own mapping: both arguments are
    then aliases of one cell, which the call only reads. *)
Example scenario_aliased :
  returned heap_alias (JRef 1) (JRef 1) =
    Some {| setCols := dquote +:+ "first_name" +:+ dquote +:+ "=$1";
            values := [JStr "first_name"] |}.
Proof. vm_compute. reflexivity. Qed.

(** The entries of [mapping_falsy]: only the last one is used. *)
Example scenario_falsy :
  returned heap_falsy (JRef 1) (JRef 2) =
    Some {| setCols := String.concat ", "
                         [fragment "a" 1; fragment "b" 2; fragment "c" 3;
                          fragment "d" 4; fragment "col_e" 5];
            values := [JNum 1; JNum 2; JNum 3; JNum 4; JNum 5] |}.
Proof. vm_compute. reflexivity. Qed.

(** A key that is the name of an inherited property is outside the model:
    the lookup in the mapping finds a built-in. *)
Example scenario_inherited_name :
  observe (sqlForPartialUpdate (JRef 1) (JRef 2) (heap_of [("constructor", JNum 1)] []))
    = NotModelled.
Proof. vm_compute. reflexivity. Qed.

(** ** The claims *)

(** Fragments and values follow the property table of the data object, which
    is in the order of [Object.keys]. *)
Lemma placeholders_follow_key_order d props jsToSql (h : heap) :
  h !! d = Some (Obj props) → props ≠ [] →
  (∀ m mprops,
     jsToSql = JRef m → h !! m = Some (Obj mprops) → primitive_values mprops →
     ordinary_keys props →
     is_Some (returned h (JRef d) jsToSql)) ∧
  (∀ res,
     returned h (JRef d) jsToSql = Some res →
     ∃ cols,
       setCols res = String.concat ", " cols ∧
       length cols = length (values res) ∧
       ∀ i k v,
         props !! i = Some (k, v) →
         values res !! i = Some v ∧
         ∃ col, cols !! i =
                  Some (dquote +:+ col +:+ dquote +:+ "=" +:+ placeholder (i + 1))).
Proof.
  intros Hd Hne. split.
  - intros m mprops -> Hm Hprim Hord.
    destruct (returned_plain _ _ _ _ _ Hd Hne Hord Hm Hprim) as (names & _ & ->). eauto.
  - intros res Hres.
    destruct (returned_inv _ _ _ _ _ Hd Hres)
      as (_ & m & mprops & names & -> & Hm & Hnames & ->).
    exists (fragments_from 0 names). cbn [setCols values].
    split; [done|]. split.
    { by rewrite length_fragments_from, (length_columns _ _ _ Hnames), !length_fmap. }
    intros i k v Hi. split.
    { by rewrite list_lookup_fmap, Hi. }
    destruct (fragment_at _ _ _ _ _ _ Hnames Hi) as (col & _ & Hfr). eauto.
Qed.

(** Without array indices among distinct keys, the order of [Object.keys]
    is the order of insertion. *)
Lemma own_lookup_app_None k (l1 l2 : list (string * jsval)) :
  own_lookup k l1 = None → own_lookup k (l1 ++ l2) = own_lookup k l2.
Proof.
  induction l1 as [|[k' v'] l1 IH]; [done|]. cbn.
  destruct (String.eqb k' k); [done|]. exact IH.
Qed.

Lemma fold_add_property_append entries : ∀ acc,
  NoDup entries.*1 →
  Forall (λ p, array_index p.1 = None) entries →
  (∀ p, p ∈ entries → own_lookup p.1 acc = None) →
  fold_left add_property entries acc = acc ++ entries.
Proof.
  induction entries as [|e entries IH]; intros acc Hdup Hidx Hacc.
  { by rewrite app_nil_r. }
  apply NoDup_cons in Hdup as [Hnew Hdup].
  apply Forall_cons in Hidx as [He Hidx].
  cbn [fold_left]. unfold add_property at 2.
  rewrite (Hacc e (list_elem_of_here _ _)), He.
  rewrite IH; [by rewrite <-app_assoc| done | done |].
  intros p Hp. rewrite own_lookup_app_None by (apply Hacc; by apply list_elem_of_further).
  destruct e as [k v]. cbn.
  destruct (String.eqb_spec k p.1) as [->|_]; [|done].
  exfalso. apply Hnew. apply list_elem_of_fmap. by exists p.
Qed.

Lemma object_of_insertion_order entries :
  NoDup entries.*1 →
  Forall (λ p, array_index p.1 = None) entries →
  object_of entries = entries.
Proof.
  intros Hdup Hidx. unfold object_of.
  by rewrite (fold_add_property_append entries [] Hdup Hidx).
Qed.

(** C1, as the code has it.  Let the data object be the one written with
    the given entries, with at least one key.  Whatever the second argument
    is: when the call returns, [setCols] is a joining of fragments, as many
    as there are values, such that for every position [i] (from 0) the
    fragment at [i] ends in the placeholder [$] followed by [i + 1], and
    [values] at [i] is the value of the key that [Object.keys] enumerates at
    [i] (array indices first, in ascending order, then the other keys in
    insertion order); so the placeholder numbered [k] stands for [values] at
    [k - 1].  When the entries have distinct keys and none is an array
    index, position [i] is the [i]-th entry as written: insertion order.
    And the call does return on every plain mapping object with primitive
    values, when no key of the data object is the name of an inherited
    property. *)
Theorem placeholders_follow_enumeration_order d entries jsToSql (h : heap) :
  h !! d = Some (Obj (object_of entries)) → object_of entries ≠ [] →
  (∀ m mprops,
     jsToSql = JRef m → h !! m = Some (Obj mprops) → primitive_values mprops →
     ordinary_keys (object_of entries) →
     is_Some (returned h (JRef d) jsToSql)) ∧
  (∀ res,
     returned h (JRef d) jsToSql = Some res →
     ∃ cols,
       setCols res = String.concat ", " cols ∧
       length cols = length (values res) ∧
       (∀ i k v,
          object_of entries !! i = Some (k, v) →
          values res !! i = Some v ∧
          ∃ col, cols !! i =
                   Some (dquote +:+ col +:+ dquote +:+ "=" +:+ placeholder (i + 1))) ∧
       (NoDup entries.*1 →
        Forall (λ p, array_index p.1 = None) entries →
        ∀ i k v,
          entries !! i = Some (k, v) →
          values res !! i = Some v ∧
          ∃ col, cols !! i =
                   Some (dquote +:+ col +:+ dquote +:+ "=" +:+ placeholder (i + 1)))).
Proof.
  intros Hd Hne.
  destruct (placeholders_follow_key_order d (object_of entries) jsToSql h Hd Hne)
    as [Hreturns Hresult].
  split; [exact Hreturns|].
  intros res Hres. destruct (Hresult res Hres) as (cols & Hjoin & Hlen & Hpos).
  exists cols. do 3 (split; [done|]).
  intros Hdup Hidx i k v Hi. apply (Hpos i k v).
  by rewrite (object_of_insertion_order _ Hdup Hidx).
Qed.

Lemma placeholders_follow_enumeration_order_witness :
  heap_aliya !! 1%positive = Some (Obj (object_of data_aliya)) ∧
  object_of data_aliya ≠ [] ∧
  is_Some (returned heap_aliya (JRef 1) (JRef 2)) ∧
  ∀ res,
    returned heap_aliya (JRef 1) (JRef 2) = Some res →
    ∃ cols,
      setCols res = String.concat ", " cols ∧
      length cols = length (values res) ∧
      (∀ i k v,
         object_of data_aliya !! i = Some (k, v) →
         values res !! i = Some v ∧
         ∃ col, cols !! i =
                  Some (dquote +:+ col +:+ dquote +:+ "=" +:+ placeholder (i + 1))) ∧
      (NoDup data_aliya.*1 →
       Forall (λ p, array_index p.1 = None) data_aliya →
       ∀ i k v,
         data_aliya !! i = Some (k, v) →
         values res !! i = Some v ∧
         ∃ col, cols !! i =
                  Some (dquote +:+ col +:+ dquote +:+ "=" +:+ placeholder (i + 1))).
Proof.
  assert (Hd : heap_aliya !! 1%positive = Some (Obj (object_of data_aliya)))
    by reflexivity.
  assert (Hne : object_of data_aliya ≠ []) by discriminate.
  split; [exact Hd|]. split; [exact Hne|].
  destruct (placeholders_follow_enumeration_order 1%positive data_aliya (JRef 2) _ Hd Hne)
    as [Hreturns Hresult].
  split; [|exact Hresult].
  apply (Hreturns 2%positive mapping_aliya); [reflexivity..| |];
    repeat constructor.
Defined.

(** C1 as it is written fails: the object [{b: 1, 2: 2, 1: 3}] is enumerated
    as [1], [2], [b], so [values] is [3, 2, 1] and the first placeholder
    stands for the value of the key inserted last, not of the key [b]
    inserted first. *)
Lemma array_index_keys_come_first :
  entries_mixed !! 0 = Some ("b", JNum 1) ∧
  object_of entries_mixed = [("1", JNum 3); ("2", JNum 2); ("b", JNum 1)] ∧
  returned heap_mixed (JRef 1) (JRef 2) =
    Some {| setCols := String.concat ", "
                         [fragment "1" 1; fragment "2" 2; fragment "b" 3];
            values := [JNum 3; JNum 2; JNum 1] |} ∧
  [JNum 3; JNum 2; JNum 1] !! 0 ≠ Some (JNum 1).
Proof.
  split; [reflexivity|]. split; [vm_compute; reflexivity|].
  split; [vm_compute; reflexivity|]. discriminate.
Qed.

(** Where the comment of the code holds.  On a data object with at least one
    key, none of them the name of an inherited property, and a plain mapping
    object with primitive values the call returns, and [setCols] is a
    joining of
    fragments in which, for the key at position [i]: if the mapping has the
    key with a column name that is not the empty string, the fragment uses
    that column name; if the mapping does not have the key, the fragment
    uses the key itself. *)
Lemma fragment_uses_mapped_or_key d m props mprops (h : heap) :
  h !! d = Some (Obj props) → props ≠ [] → ordinary_keys props →
  h !! m = Some (Obj mprops) → primitive_values mprops →
  ∃ res cols,
    returned h (JRef d) (JRef m) = Some res ∧
    setCols res = String.concat ", " cols ∧
    ∀ i k v,
      props !! i = Some (k, v) →
      (∀ c, own_lookup k mprops = Some (JStr c) → c ≠ EmptyString →
            cols !! i = Some (fragment c (i + 1))) ∧
      (own_lookup k mprops = None → cols !! i = Some (fragment k (i + 1))).
Proof.
  intros Hd Hne Hord Hm Hprim.
  destruct (returned_plain _ _ _ _ _ Hd Hne Hord Hm Hprim) as (names & Hnames & ->).
  eexists _, (fragments_from 0 names). split; [done|]. split; [done|].
  intros i k v Hi.
  destruct (fragment_at _ _ _ _ _ _ Hnames Hi) as (col & Hcol & Hfr).
  split.
  - intros c Hk Hc.
    rewrite (column_truthy _ _ _ Hk) in Hcol; [|by destruct c].
    by simplify_eq/=.
  - intros Hk. rewrite (column_absent _ _ Hk) in Hcol; [by simplify_eq|].
    apply (Forall_lookup_1 _ _ _ _ Hord Hi).
Qed.

Lemma fragment_uses_mapped_or_key_witness :
  heap_aliya !! 1%positive = Some (Obj data_aliya) ∧ data_aliya ≠ [] ∧
  ordinary_keys data_aliya ∧
  heap_aliya !! 2%positive = Some (Obj mapping_aliya) ∧
  primitive_values mapping_aliya ∧
  ∃ res cols,
    returned heap_aliya (JRef 1) (JRef 2) = Some res ∧
    setCols res = String.concat ", " cols ∧
    ∀ i k v,
      data_aliya !! i = Some (k, v) →
      (∀ c, own_lookup k mapping_aliya = Some (JStr c) → c ≠ EmptyString →
            cols !! i = Some (fragment c (i + 1))) ∧
      (own_lookup k mapping_aliya = None → cols !! i = Some (fragment k (i + 1))).
Proof.
  assert (Hd : heap_aliya !! 1%positive = Some (Obj data_aliya)) by reflexivity.
  assert (Hm : heap_aliya !! 2%positive = Some (Obj mapping_aliya)) by reflexivity.
  assert (Hne : data_aliya ≠ []) by discriminate.
  assert (Hprim : primitive_values mapping_aliya) by repeat constructor.
  assert (Hord : ordinary_keys data_aliya) by repeat constructor.
  do 5 (split; [assumption|]).
  exact (fragment_uses_mapped_or_key 1%positive 2%positive _ _ _ Hd Hne Hord Hm Hprim).
Defined.

(** C2, at a mapping entry that is the empty string.  With the data object
    [{age: 45}] and the mapping [mapping_blank] the key has an entry in the
    mapping, and the fragment uses the key, not the name the entry gives:
    against the comment above the callback, which promises the mapped value
    for every key that has a corresponding key in the mapping. *)
Theorem mapped_empty_name_is_not_used :
  own_lookup "age" mapping_blank = Some (JStr EmptyString) ∧
  returned heap_blank (JRef 1) (JRef 2) =
    Some {| setCols := fragment "age" 1; values := [JNum 45] |} ∧
  fragment "age" 1 ≠ fragment EmptyString 1.
Proof.
  split; [reflexivity|]. split; [vm_compute; reflexivity|]. discriminate.
Qed.

(** C3.  On a data object without keys the call throws the
    [BadRequestError] with the message [No data], whatever the second
    argument is (a mapping object, [undefined] for an omitted one, or any
    other value), and so returns no result. *)
Theorem empty_update_throws d jsToSql (h : heap) :
  h !! d = Some (Obj []) →
  observe (sqlForPartialUpdate (JRef d) jsToSql h) = Thrown (BadRequestError "No data") ∧
  returned h (JRef d) jsToSql = None.
Proof.
  intros Hd. unfold returned.
  by rewrite (sqlForPartialUpdate_empty _ _ _ Hd).
Qed.

Lemma empty_update_throws_witness :
  heap_no_data !! 1%positive = Some (Obj []) ∧
  (observe (sqlForPartialUpdate (JRef 1) (JRef 2) heap_no_data)
     = Thrown (BadRequestError "No data") ∧
   returned heap_no_data (JRef 1) (JRef 2) = None) ∧
  (observe (sqlForPartialUpdate (JRef 1) JUndefined heap_no_data)
     = Thrown (BadRequestError "No data") ∧
   returned heap_no_data (JRef 1) JUndefined = None).
Proof.
  assert (Hd : heap_no_data !! 1%positive = Some (Obj [])) by reflexivity.
  split; [exact Hd|]. split.
  - exact (empty_update_throws 1%positive (JRef 2) _ Hd).
  - exact (empty_update_throws 1%positive JUndefined _ Hd).
Defined.

(** C4, at an omitted mapping.  With the data object [{age: 45}] and no
    second argument the call does not return: the property access on
    [undefined] in the callback throws a [TypeError]. *)
Theorem omitted_mapping_throws_TypeError :
  observe (sqlForPartialUpdate (JRef 1) JUndefined heap_age) = Thrown TypeError ∧
  returned heap_age (JRef 1) JUndefined = None.
Proof. split; vm_compute; reflexivity. Qed.

(** C5.  On a data object with at least one key, whatever the second
    argument is: when the call returns, the second argument is a plain
    object, and [setCols] is exactly the fragments joined with a comma and a
    space, one fragment per key, the fragment of the key at position [i]
    being the column of the key between double quotes, then [=$], then
    [i + 1] in decimal, where the column is what the lookup of the key in
    the mapping finds or else the key.  And the call does return on every
    plain mapping object with primitive values, when no key of the data
    object is the name of an inherited property. *)
Theorem fragments_quoted_and_joined d props jsToSql (h : heap) :
  h !! d = Some (Obj props) → props ≠ [] →
  (∀ m mprops,
     jsToSql = JRef m → h !! m = Some (Obj mprops) → primitive_values mprops →
     ordinary_keys props →
     is_Some (returned h (JRef d) jsToSql)) ∧
  (∀ res,
     returned h (JRef d) jsToSql = Some res →
     ∃ m mprops cols,
       jsToSql = JRef m ∧ h !! m = Some (Obj mprops) ∧
       setCols res = String.concat ", " cols ∧
       length cols = length props ∧
       ∀ i k v,
         props !! i = Some (k, v) →
         ∃ mapped col,
           lookup_result mprops k = Some mapped ∧
           ToString (or_else mapped (JStr k)) = Some col ∧
           cols !! i =
             Some (dquote +:+ col +:+ dquote +:+ "=$" +:+ decimal (Z.of_nat (i + 1)))).
Proof.
  intros Hd Hne. split.
  - intros m mprops -> Hm Hprim Hord.
    destruct (returned_plain _ _ _ _ _ Hd Hne Hord Hm Hprim) as (names & _ & ->). eauto.
  - intros res Hres.
    destruct (returned_inv _ _ _ _ _ Hd Hres)
      as (_ & m & mprops & names & -> & Hm & Hnames & ->).
    exists m, mprops, (fragments_from 0 names). cbn [setCols].
    do 3 (split; [done|]). split.
    { by rewrite length_fragments_from, (length_columns _ _ _ Hnames), length_fmap. }
    intros i k v Hi.
    destruct (fragment_at _ _ _ _ _ _ Hnames Hi) as (col & Hcol & Hfr).
    apply column_Some in Hcol as (mapped & Hmapped & Hcol). eauto.
Qed.

Lemma fragments_quoted_and_joined_witness :
  heap_company !! 1%positive = Some (Obj data_company) ∧ data_company ≠ [] ∧
  is_Some (returned heap_company (JRef 1) (JRef 2)) ∧
  ∀ res,
    returned heap_company (JRef 1) (JRef 2) = Some res →
    ∃ m mprops cols,
      JRef 2 = JRef m ∧ heap_company !! m = Some (Obj mprops) ∧
      setCols res = String.concat ", " cols ∧
      length cols = length data_company ∧
      ∀ i k v,
        data_company !! i = Some (k, v) →
        ∃ mapped col,
          lookup_result mprops k = Some mapped ∧
          ToString (or_else mapped (JStr k)) = Some col ∧
          cols !! i =
            Some (dquote +:+ col +:+ dquote +:+ "=$" +:+ decimal (Z.of_nat (i + 1))).
Proof.
  assert (Hd : heap_company !! 1%positive = Some (Obj data_company)) by reflexivity.
  assert (Hne : data_company ≠ []) by discriminate.
  split; [exact Hd|]. split; [exact Hne|].
  destruct (fragments_quoted_and_joined 1%positive data_company (JRef 2) _ Hd Hne)
    as [Hreturns Hresult].
  split; [|exact Hresult].
  apply (Hreturns 2%positive mapping_company); [reflexivity..| |];
    repeat constructor.
Defined.

(** The counts on a mapping object.  On a data object with at least one
    key, none of them the name of an inherited property, and a plain mapping
    object with primitive values the call returns; [values] has as many
    elements as the data object has keys; [setCols] is the joining of as
    many fragments; and when no column name contains the separator of the
    joining, splitting [setCols] at that separator gives back exactly these
    fragments. *)
Lemma values_and_fragments_agree d m props mprops (h : heap) :
  h !! d = Some (Obj props) → props ≠ [] → ordinary_keys props →
  h !! m = Some (Obj mprops) → primitive_values mprops →
  ∃ res names,
    returned h (JRef d) (JRef m) = Some res ∧
    mapM (column mprops) props.*1 = Some names ∧
    length (values res) = length props ∧
    setCols res = String.concat ", " (fragments_from 0 names) ∧
    length (fragments_from 0 names) = length (values res) ∧
    (Forall (λ col, has_separator col = false) names →
     split_comma_space (setCols res) = fragments_from 0 names ∧
     length (split_comma_space (setCols res)) = length (values res)).
Proof.
  intros Hd Hne Hord Hm Hprim.
  destruct (returned_plain _ _ _ _ _ Hd Hne Hord Hm Hprim) as (names & Hnames & ->).
  eexists _, names. split; [done|]. split; [done|]. cbn [setCols values].
  assert (Hlen : length (fragments_from 0 names) = length props.*2).
  { by rewrite length_fragments_from, (length_columns _ _ _ Hnames), !length_fmap. }
  split; [by rewrite length_fmap|]. split; [done|]. split; [done|].
  intros Hclean.
  assert (Hsplit : split_comma_space (String.concat ", " (fragments_from 0 names))
                   = fragments_from 0 names).
  { destruct (fragments_from 0 names) as [|fr frs] eqn:Hfrs.
    - destruct props; [done|]. cbn in Hlen. discriminate.
    - apply split_from_fragments. rewrite <-Hfrs.
      apply Forall_forall. intros fr0 Hfr0. unfold fragments_from in Hfr0.
      apply elem_of_lookup_imap in Hfr0 as (i & col & -> & Hcol).
      apply has_separator_fragment.
      by apply (Forall_lookup_1 _ _ _ _ Hclean Hcol). }
  by rewrite Hsplit.
Qed.

Lemma values_and_fragments_agree_witness :
  heap_company !! 1%positive = Some (Obj data_company) ∧ data_company ≠ [] ∧
  ordinary_keys data_company ∧
  heap_company !! 2%positive = Some (Obj mapping_company) ∧
  primitive_values mapping_company ∧
  ∃ res names,
    returned heap_company (JRef 1) (JRef 2) = Some res ∧
    mapM (column mapping_company) data_company.*1 = Some names ∧
    length (values res) = length data_company ∧
    setCols res = String.concat ", " (fragments_from 0 names) ∧
    length (fragments_from 0 names) = length (values res) ∧
    (Forall (λ col, has_separator col = false) names →
     split_comma_space (setCols res) = fragments_from 0 names ∧
     length (split_comma_space (setCols res)) = length (values res)).
Proof.
  assert (Hd : heap_company !! 1%positive = Some (Obj data_company)) by reflexivity.
  assert (Hm : heap_company !! 2%positive = Some (Obj mapping_company)) by reflexivity.
  assert (Hne : data_company ≠ []) by discriminate.
  assert (Hprim : primitive_values mapping_company) by repeat constructor.
  assert (Hord : ordinary_keys data_company) by repeat constructor.
  do 5 (split; [assumption|]).
  exact (values_and_fragments_agree 1%positive 2%positive _ _ _ Hd Hne Hord Hm Hprim).
Defined.

(** C6, at an omitted mapping.  With the two keys of the fourth scenario and
    no second argument the call throws a [TypeError] and returns nothing:
    there is no [values] and no [setCols] whose sizes could equal the number
    of keys. *)
Theorem omitted_mapping_gives_no_values :
  length data_company = 2 ∧
  observe (sqlForPartialUpdate (JRef 1) JUndefined heap_company) = Thrown TypeError ∧
  returned heap_company (JRef 1) JUndefined = None.
Proof. split; [reflexivity|]. split; vm_compute; reflexivity. Qed.

(** C7.  Two calls whose data objects have the same properties in the same
    order, and whose mappings are both omitted or are plain objects with the
    same entries, cannot be told apart by their outcome, whatever else the
    two heaps hold and wherever the objects are stored: both return, with
    the same [setCols] and the same [values], or both throw the same
    error. *)
Theorem same_inputs_same_outcome d1 d2 j1 j2 props (h1 h2 : heap) :
  h1 !! d1 = Some (Obj props) → h2 !! d2 = Some (Obj props) →
  same_mapping h1 j1 h2 j2 →
  observe (sqlForPartialUpdate (JRef d1) j1 h1) =
  observe (sqlForPartialUpdate (JRef d2) j2 h2).
Proof.
  intros Hd1 Hd2 Hsame. destruct (decide (props = [])) as [->|Hne].
  { by rewrite (sqlForPartialUpdate_empty _ _ _ Hd1),
               (sqlForPartialUpdate_empty _ _ _ Hd2). }
  destruct Hsame as [[<- Habs]|(m1 & m2 & mp1 & mp2 & -> & -> & Hm1 & Hm2 & Hext)].
  - by rewrite (sqlForPartialUpdate_absent _ _ _ _ Hd1 Hne Habs),
               (sqlForPartialUpdate_absent _ _ _ _ Hd2 Hne Habs).
  - rewrite (observe_plain _ _ _ _ _ Hd1 Hne Hm1), (observe_plain _ _ _ _ _ Hd2 Hne Hm2).
    by rewrite (columns_ext _ _ _ Hext).
Qed.

(** Calling twice in a row: the second call runs in the heap the first one
    left, and returns the same. *)
Lemma same_inputs_same_outcome_witness :
  heap_aliya !! 1%positive = Some (Obj data_aliya) ∧
  heap_aliya_again !! 1%positive = Some (Obj data_aliya) ∧
  same_mapping heap_aliya (JRef 2) heap_aliya_again (JRef 2) ∧
  observe (sqlForPartialUpdate (JRef 1) (JRef 2) heap_aliya) =
  observe (sqlForPartialUpdate (JRef 1) (JRef 2) heap_aliya_again).
Proof.
  assert (Hd1 : heap_aliya !! 1%positive = Some (Obj data_aliya)) by reflexivity.
  assert (Hd2 : heap_aliya_again !! 1%positive = Some (Obj data_aliya))
    by (vm_compute; reflexivity).
  assert (Hsame : same_mapping heap_aliya (JRef 2) heap_aliya_again (JRef 2)).
  { right. exists 2%positive, 2%positive, mapping_aliya, mapping_aliya.
    do 2 (split; [reflexivity|]). split; [reflexivity|].
    split; [vm_compute; reflexivity|]. reflexivity. }
  do 3 (split; [assumption|]).
  exact (same_inputs_same_outcome 1%positive 1%positive _ _ _ _ _ Hd1 Hd2 Hsame).
Defined.

(** C8.  Whatever the arguments and the heap, and whether the call returns
    or throws, every cell the heap held before the call is in the heap after
    the call, unchanged: the data object and the mapping object keep their
    entries, and so does every other object.  All the call adds are cells at
    addresses that were unused. *)
Theorem call_changes_no_cell dataToUpdate jsToSql (h : heap) :
  match sqlForPartialUpdate dataToUpdate jsToSql h with
  | Normal _ h' | Abrupt _ h' =>
      (∀ l c, h !! l = Some c → h' !! l = Some c) ∧
      (∀ l, h !! l ≠ h' !! l → h !! l = None)
  | Unmodelled => True
  end.
Proof.
  pose proof (preserves_sqlForPartialUpdate dataToUpdate jsToSql h) as Hsub.
  assert (Hframe : ∀ h' : heap, h ⊆ h' →
    (∀ l c, h !! l = Some c → h' !! l = Some c) ∧
    (∀ l, h !! l ≠ h' !! l → h !! l = None)).
  { intros h' Hh'. split.
    - intros l c Hl. by apply (lookup_weaken h h').
    - intros l Hdiff. destruct (h !! l) as [c|] eqn:Hl; [|done].
      by rewrite (lookup_weaken h h' l c Hl Hh') in Hdiff. }
  destruct (sqlForPartialUpdate dataToUpdate jsToSql h); auto.
Qed.

Lemma call_changes_no_cell_witness :
  is_Some (returned heap_aliya (JRef 1) (JRef 2)) ∧
  heap_aliya_again !! 1%positive = Some (Obj data_aliya) ∧
  heap_aliya_again !! 2%positive = Some (Obj mapping_aliya).
Proof.
  split; [vm_compute; eauto|].
  pose proof (call_changes_no_cell (JRef 1) (JRef 2) heap_aliya) as Hcall.
  unfold heap_aliya_again.
  destruct (sqlForPartialUpdate (JRef 1) (JRef 2) heap_aliya)
    as [r h'|e h'|] eqn:Hrun; cbn [heap_after].
  - destruct Hcall as [Hkeep _]. split; apply Hkeep; reflexivity.
  - destruct Hcall as [Hkeep _]. split; apply Hkeep; reflexivity.
  - split; reflexivity.
Defined.

(** C9, at an omitted mapping.  With the data object of the first scenario
    and no second argument the call ends, but neither with a result nor with
    the [BadRequestError]: it ends with a [TypeError]. *)
Theorem omitted_mapping_ends_in_TypeError :
  observe (sqlForPartialUpdate (JRef 1) JUndefined heap_aliya) = Thrown TypeError ∧
  (∀ res, observe (sqlForPartialUpdate (JRef 1) JUndefined heap_aliya) ≠ Returned res) ∧
  (∀ message,
     observe (sqlForPartialUpdate (JRef 1) JUndefined heap_aliya)
       ≠ Thrown (BadRequestError message)).
Proof.
  assert (Hrun : observe (sqlForPartialUpdate (JRef 1) JUndefined heap_aliya)
                 = Thrown TypeError) by (vm_compute; reflexivity).
  rewrite Hrun. split; [reflexivity|]. split; intros ?; discriminate.
Qed.

(** C10.  On a data object with at least one key, none of them the name of
    an inherited property, and a plain mapping object with primitive values
    the call returns, and for every key whose entry in the mapping is falsy
    (the empty string, zero, [null], [undefined], [false]) the fragment uses
    the key itself, as for a key the mapping does not have. *)
Theorem falsy_entry_falls_back_to_key d m props mprops (h : heap) :
  h !! d = Some (Obj props) → props ≠ [] → ordinary_keys props →
  h !! m = Some (Obj mprops) → primitive_values mprops →
  ∃ res cols,
    returned h (JRef d) (JRef m) = Some res ∧
    setCols res = String.concat ", " cols ∧
    ∀ i k v w,
      props !! i = Some (k, v) →
      own_lookup k mprops = Some w → ToBoolean w = false →
      cols !! i = Some (fragment k (i + 1)).
Proof.
  intros Hd Hne Hord Hm Hprim.
  destruct (returned_plain _ _ _ _ _ Hd Hne Hord Hm Hprim) as (names & Hnames & ->).
  eexists _, (fragments_from 0 names). split; [done|]. split; [done|].
  intros i k v w Hi Hk Hw.
  destruct (fragment_at _ _ _ _ _ _ Hnames Hi) as (col & Hcol & Hfr).
  rewrite (column_falsy _ _ _ Hk Hw) in Hcol. by simplify_eq.
Qed.

Lemma falsy_entry_falls_back_to_key_witness :
  heap_falsy !! 1%positive = Some (Obj data_falsy) ∧ data_falsy ≠ [] ∧
  ordinary_keys data_falsy ∧
  heap_falsy !! 2%positive = Some (Obj mapping_falsy) ∧
  primitive_values mapping_falsy ∧
  ToBoolean (JStr EmptyString) = false ∧
  ∃ res cols,
    returned heap_falsy (JRef 1) (JRef 2) = Some res ∧
    setCols res = String.concat ", " cols ∧
    ∀ i k v w,
      data_falsy !! i = Some (k, v) →
      own_lookup k mapping_falsy = Some w → ToBoolean w = false →
      cols !! i = Some (fragment k (i + 1)).
Proof.
  assert (Hd : heap_falsy !! 1%positive = Some (Obj data_falsy)) by reflexivity.
  assert (Hm : heap_falsy !! 2%positive = Some (Obj mapping_falsy)) by reflexivity.
  assert (Hne : data_falsy ≠ []) by discriminate.
  assert (Hprim : primitive_values mapping_falsy) by repeat constructor.
  assert (Hord : ordinary_keys data_falsy) by repeat constructor.
  do 5 (split; [assumption|]). split; [reflexivity|].
  exact (falsy_entry_falls_back_to_key 1%positive 2%positive _ _ _ Hd Hne Hord Hm Hprim).
Defined.

(** ** Further properties of the call *)

(** The cells of a result: the result object and the array behind [values]
    are two new cells. *)
Lemma sqlForPartialUpdate_plain_cells d m props mprops names (h : heap) :
  h !! d = Some (Obj props) → props ≠ [] →
  h !! m = Some (Obj mprops) →
  mapM (column mprops) props.*1 = Some names →
  ∃ r a h',
    sqlForPartialUpdate (JRef d) (JRef m) h = Normal r h' ∧
    h !! r = None ∧ h !! a = None ∧ r ≠ a ∧
    h' !! r = Some (Obj [("setCols", JStr (String.concat ", " (fragments_from 0 names)));
                         ("values", JRef a)]) ∧
    h' !! a = Some (Arr props.*2).
Proof.
  intros Hd Hne Hm Hnames.
  rewrite (sqlForPartialUpdate_nonempty _ _ _ _ Hd Hne).
  set (h1 := <[fresh (dom h) := Arr (JStr <$> props.*1)]> h).
  assert (Hsub1 : h ⊆ h1) by apply alloc_extends.
  assert (Hm1 : h1 !! m = Some (Obj mprops)) by by apply lookup_alloc_old.
  assert (Hk1 : h1 !! fresh (dom h) = Some (Arr (JStr <$> props.*1)))
    by apply lookup_alloc_new.
  unfold bind at 1.
  rewrite (Array_map_arr _ _ _ _ Hk1).
  rewrite (map_from_plain _ _ _ _ _ Hm1), Hnames.
  set (h2 := <[fresh (dom h1) := _]> h1).
  assert (Hsub2 : h ⊆ h2) by (etrans; [exact Hsub1|apply alloc_extends]).
  assert (Hd2 : h2 !! d = Some (Obj props)) by by apply (lookup_weaken h h2).
  assert (Hc2 : h2 !! fresh (dom h1) = Some (Arr (JStr <$> fragments_from 0 names)))
    by apply lookup_alloc_new.
  rewrite (bind_Normal _ _ _ _ _ (Array_join_strings ", " _ _ _ Hc2)).
  rewrite (bind_Normal _ _ _ _ _ (Object_values_plain _ _ _ Hd2)).
  set (h3 := <[fresh (dom h2) := _]> h2).
  assert (Hsub3 : h ⊆ h3) by (etrans; [exact Hsub2|apply alloc_extends]).
  assert (Hv : h3 !! fresh (dom h2) = Some (Arr props.*2)) by apply lookup_alloc_new.
  assert (Hfresh : ∀ (g : heap) l, h ⊆ g → g !! l = None → h !! l = None).
  { intros g l Hg Hl. destruct (h !! l) as [c|] eqn:Hhl; [|done].
    by rewrite (lookup_weaken h g l c Hhl Hg) in Hl. }
  unfold alloc. eexists (fresh (dom h3)), (fresh (dom h2)), _.
  split; [reflexivity|].
  split; [apply (Hfresh h3 _ Hsub3), fresh_unused|].
  split; [apply (Hfresh h2 _ Hsub2), fresh_unused|].
  split.
  { intros Heq. rewrite <-Heq in Hv. by rewrite fresh_unused in Hv. }
  split; [apply lookup_alloc_new|]. by apply lookup_alloc_old.
Qed.

Lemma columns_ext_on mprops mprops' (ks : list string) :
  (∀ k, k ∈ ks → own_lookup k mprops = own_lookup k mprops') →
  mapM (column mprops) ks = mapM (column mprops') ks.
Proof.
  induction ks as [|k ks IH]; intros Hext; [reflexivity|].
  cbn. rewrite (column_ext _ _ _ (Hext k (list_elem_of_here _ _))), IH; [done|].
  intros k' Hk'. apply Hext. by apply list_elem_of_further.
Qed.

Lemma decimal_inj a b : decimal a = decimal b → a = b.
Proof.
  assert (Hisi : ∀ z, NilZero.int_of_string (decimal z) = Some (Z.to_int z)).
  { intros z. unfold decimal. apply NilZero.isi.
    - destruct z as [|p|p]; cbn; try discriminate.
      intros [= Hp]. by apply DecimalPos.Unsigned.to_uint_nonnil in Hp.
    - destruct z as [|p|p]; cbn; try discriminate.
      intros [= Hp]. by apply DecimalPos.Unsigned.to_uint_nonnil in Hp. }
  intros Hab. apply DecimalZ.to_int_inj.
  pose proof (Hisi a) as Ha. rewrite Hab, Hisi in Ha. by injection Ha.
Qed.

Lemma placeholder_inj i j : placeholder i = placeholder j → i = j.
Proof.
  unfold placeholder. rewrite !append_cons, !append_empty_l.
  intros [= Hij%decimal_inj]. lia.
Qed.



(** X2.  A call that returns gives back a new object whose [values] is a new
    array: neither address was in use before the call, the two differ, and
    the array holds the values of the data object.  Changing the result
    afterwards cannot reach the data object or the mapping. *)
Theorem result_cells_are_new d props jsToSql (h : heap) r h' :
  h !! d = Some (Obj props) →
  sqlForPartialUpdate (JRef d) jsToSql h = Normal r h' →
  h !! r = None ∧
  ∃ s a,
    h' !! r = Some (Obj [("setCols", JStr s); ("values", JRef a)]) ∧
    h' !! a = Some (Arr props.*2) ∧
    h !! a = None ∧ a ≠ r.
Proof.
  intros Hd Hrun.
  destruct (sqlForPartialUpdate_Normal_inv _ _ _ _ _ _ Hd Hrun)
    as (Hne & m & mprops & names & -> & Hm & Hnames & _).
  destruct (sqlForPartialUpdate_plain_cells _ _ _ _ _ _ Hd Hne Hm Hnames)
    as (r0 & a & h0 & Hrun0 & Hr & Ha & Hra & Hcell & Harr).
  rewrite Hrun0 in Hrun. injection Hrun as <- <-.
  split; [done|]. eexists _, a. split; [exact Hcell|]. split; [done|].
  split; [done|]. by intros ->.
Qed.

Lemma result_cells_are_new_witness :
  heap_aliya !! 1%positive = Some (Obj data_aliya) ∧
  sqlForPartialUpdate (JRef 1) (JRef 2) heap_aliya = Normal 6%positive heap_aliya_again ∧
  heap_aliya !! 6%positive = None ∧
  ∃ s a,
    heap_aliya_again !! 6%positive
      = Some (Obj [("setCols", JStr s); ("values", JRef a)]) ∧
    heap_aliya_again !! a = Some (Arr data_aliya.*2) ∧
    heap_aliya !! a = None ∧ a ≠ 6%positive.
Proof.
  assert (Hd : heap_aliya !! 1%positive = Some (Obj data_aliya)) by reflexivity.
  assert (Hrun : sqlForPartialUpdate (JRef 1) (JRef 2) heap_aliya
                 = Normal 6%positive heap_aliya_again) by (vm_compute; reflexivity).
  do 2 (split; [assumption|]).
  exact (result_cells_are_new 1%positive _ _ _ _ _ Hd Hrun).
Defined.

(** X3.  The mapping is read only at the keys of the data object: two
    mapping objects that agree on those keys give the same outcome, whatever
    other entries they have and in whatever order. *)
Theorem mapping_read_only_at_data_keys d m1 m2 props mprops1 mprops2 (h : heap) :
  h !! d = Some (Obj props) →
  h !! m1 = Some (Obj mprops1) → h !! m2 = Some (Obj mprops2) →
  (∀ k, k ∈ props.*1 → own_lookup k mprops1 = own_lookup k mprops2) →
  observe (sqlForPartialUpdate (JRef d) (JRef m1) h) =
  observe (sqlForPartialUpdate (JRef d) (JRef m2) h).
Proof.
  intros Hd Hm1 Hm2 Hagree. destruct (decide (props = [])) as [->|Hne].
  { by rewrite !(sqlForPartialUpdate_empty _ _ _ Hd). }
  rewrite (observe_plain _ _ _ _ _ Hd Hne Hm1), (observe_plain _ _ _ _ _ Hd Hne Hm2).
  by rewrite (columns_ext_on _ _ _ Hagree).
Qed.

Lemma mapping_read_only_at_data_keys_witness :
  heap_two_mappings !! 1%positive = Some (Obj data_aliya) ∧
  heap_two_mappings !! 2%positive = Some (Obj mapping_aliya) ∧
  heap_two_mappings !! 3%positive = Some (Obj mapping_aliya_more) ∧
  (∀ k, k ∈ data_aliya.*1 →
        own_lookup k mapping_aliya = own_lookup k mapping_aliya_more) ∧
  observe (sqlForPartialUpdate (JRef 1) (JRef 2) heap_two_mappings) =
  observe (sqlForPartialUpdate (JRef 1) (JRef 3) heap_two_mappings).
Proof.
  assert (Hd : heap_two_mappings !! 1%positive = Some (Obj data_aliya)) by reflexivity.
  assert (Hm1 : heap_two_mappings !! 2%positive = Some (Obj mapping_aliya))
    by reflexivity.
  assert (Hm2 : heap_two_mappings !! 3%positive = Some (Obj mapping_aliya_more))
    by reflexivity.
  assert (Hagree : ∀ k, k ∈ data_aliya.*1 →
            own_lookup k mapping_aliya = own_lookup k mapping_aliya_more).
  { intros k Hk. cbn in Hk.
    apply elem_of_cons in Hk as [->|Hk]; [reflexivity|].
    apply elem_of_cons in Hk as [->|Hk]; [reflexivity|].
    by apply not_elem_of_nil in Hk. }
  do 4 (split; [assumption|]).
  exact (mapping_read_only_at_data_keys 1%positive 2%positive 3%positive
           _ _ _ _ Hd Hm1 Hm2 Hagree).
Defined.

(** X4.  On a data object with at least one key, a second argument that is
    [undefined] (omitted) or [null] makes the call throw a [TypeError], at
    the first property access of the callback: no result is returned. *)
Theorem missing_mapping_throws_TypeError d props jsToSql (h : heap) :
  h !! d = Some (Obj props) → props ≠ [] →
  jsToSql = JUndefined ∨ jsToSql = JNull →
  observe (sqlForPartialUpdate (JRef d) jsToSql h) = Thrown TypeError ∧
  returned h (JRef d) jsToSql = None.
Proof.
  intros Hd Hne Habs. unfold returned.
  by rewrite (sqlForPartialUpdate_absent _ _ _ _ Hd Hne Habs).
Qed.

Lemma missing_mapping_throws_TypeError_witness :
  heap_company !! 1%positive = Some (Obj data_company) ∧ data_company ≠ [] ∧
  (JNull = JUndefined ∨ JNull = JNull) ∧
  observe (sqlForPartialUpdate (JRef 1) JNull heap_company) = Thrown TypeError ∧
  returned heap_company (JRef 1) JNull = None.
Proof.
  assert (Hd : heap_company !! 1%positive = Some (Obj data_company)) by reflexivity.
  assert (Hne : data_company ≠ []) by discriminate.
  assert (Habs : JNull = JUndefined ∨ JNull = JNull) by (right; reflexivity).
  do 3 (split; [assumption|]).
  exact (missing_mapping_throws_TypeError 1%positive _ _ _ Hd Hne Habs).
Defined.

(** X5.  Which way a call ends is decided by its inputs alone.  On a data
    object whose keys are not names of inherited properties, and a mapping
    that is omitted or a plain object with primitive values: the call throws
    the [BadRequestError] exactly when the data object has no key; it throws
    a [TypeError] exactly when there is a key and the mapping is omitted; it
    returns a result exactly when there is a key and a mapping object. *)
Theorem outcome_by_inputs d props jsToSql (h : heap) :
  h !! d = Some (Obj props) → ordinary_keys props →
  (jsToSql = JUndefined ∨
   ∃ m mprops, jsToSql = JRef m ∧ h !! m = Some (Obj mprops) ∧ primitive_values mprops) →
  (observe (sqlForPartialUpdate (JRef d) jsToSql h) = Thrown (BadRequestError "No data")
     ↔ props = []) ∧
  (observe (sqlForPartialUpdate (JRef d) jsToSql h) = Thrown TypeError
     ↔ props ≠ [] ∧ jsToSql = JUndefined) ∧
  (is_Some (returned h (JRef d) jsToSql) ↔ props ≠ [] ∧ jsToSql ≠ JUndefined).
Proof.
  intros Hd Hord Hmap. unfold returned.
  destruct (decide (props = [])) as [->|Hne].
  { rewrite (sqlForPartialUpdate_empty _ _ _ Hd). cbn.
    split; [done|]. split; (split; [|by intros [? _]]).
    - discriminate.
    - by intros [? [=]]. }
  destruct Hmap as [->|(m & mprops & -> & Hm & Hprim)].
  { rewrite (sqlForPartialUpdate_absent _ _ _ _ Hd Hne); [|by left]. cbn.
    split; [split; [discriminate|done]|]. split; [done|].
    split; [by intros [? [=]]|by intros [_ ?]]. }
  destruct (columns_primitive mprops props Hprim Hord) as [names Hnames].
  destruct (sqlForPartialUpdate_plain _ _ _ _ _ _ Hd Hne Hm Hnames)
    as (r & h' & -> & Hread).
  cbn. rewrite Hread.
  split; [split; [discriminate|done]|].
  split; [split; [discriminate|by intros [_ [=]]]|].
  split; [done|eauto].
Qed.

Lemma outcome_by_inputs_witness :
  heap_aliya !! 1%positive = Some (Obj data_aliya) ∧ ordinary_keys data_aliya ∧
  heap_aliya !! 2%positive = Some (Obj mapping_aliya) ∧
  primitive_values mapping_aliya ∧
  (observe (sqlForPartialUpdate (JRef 1) (JRef 2) heap_aliya)
     = Thrown (BadRequestError "No data") ↔ data_aliya = []) ∧
  (observe (sqlForPartialUpdate (JRef 1) (JRef 2) heap_aliya) = Thrown TypeError
     ↔ data_aliya ≠ [] ∧ JRef 2 = JUndefined) ∧
  (is_Some (returned heap_aliya (JRef 1) (JRef 2))
     ↔ data_aliya ≠ [] ∧ JRef 2 ≠ JUndefined).
Proof.
  assert (Hd : heap_aliya !! 1%positive = Some (Obj data_aliya)) by reflexivity.
  assert (Hm : heap_aliya !! 2%positive = Some (Obj mapping_aliya)) by reflexivity.
  assert (Hord : ordinary_keys data_aliya) by repeat constructor.
  assert (Hprim : primitive_values mapping_aliya) by repeat constructor.
  do 4 (split; [assumption|]).
  apply (outcome_by_inputs 1%positive data_aliya (JRef 2) heap_aliya Hd Hord).
  right. by exists 2%positive, mapping_aliya.
Defined.

(** X6.  A result never has an empty [setCols]: the text begins with the
    double quote that opens the first column name. *)
Theorem setCols_is_not_empty d props jsToSql (h : heap) res :
  h !! d = Some (Obj props) →
  returned h (JRef d) jsToSql = Some res →
  setCols res ≠ EmptyString ∧ ∃ rest, setCols res = dquote +:+ rest.
Proof.
  intros Hd Hres.
  destruct (returned_inv _ _ _ _ _ Hd Hres)
    as (Hne & m & mprops & names & -> & Hm & Hnames & ->).
  cbn [setCols].
  assert (∃ rest, String.concat ", " (fragments_from 0 names) = dquote +:+ rest)
    as [rest ->]; [|split; [done|eauto]].
  apply length_columns in Hnames. rewrite length_fmap in Hnames.
  destruct names as [|col names]; [by destruct props|].
  rewrite fragments_from_cons. unfold fragment.
  destruct (fragments_from 1 names) as [|fr frs].
  - eexists. reflexivity.
  - change (String.concat ", " (?f :: fr :: frs))
      with (f +:+ ", " +:+ String.concat ", " (fr :: frs)).
    rewrite !append_assoc. eexists. reflexivity.
Qed.

Lemma setCols_is_not_empty_witness :
  heap_age !! 1%positive = Some (Obj data_age) ∧
  returned heap_age (JRef 1) (JRef 2)
    = Some {| setCols := fragment "age" 1; values := [JNum 45] |} ∧
  fragment "age" 1 ≠ EmptyString ∧ ∃ rest, fragment "age" 1 = dquote +:+ rest.
Proof.
  assert (Hd : heap_age !! 1%positive = Some (Obj data_age)) by reflexivity.
  assert (Hres : returned heap_age (JRef 1) (JRef 2)
                 = Some {| setCols := fragment "age" 1; values := [JNum 45] |})
    by (vm_compute; reflexivity).
  do 2 (split; [assumption|]).
  exact (setCols_is_not_empty 1%positive _ _ _ _ Hd Hres).
Defined.

(** X7.  The placeholders of a result are pairwise distinct: the fragment at
    position [i] carries the placeholder of [i + 1], two positions never get
    the same placeholder text, and the placeholder after the last one, that
    of [values.length + 1], is used by no fragment. *)
Theorem placeholders_are_distinct d props jsToSql (h : heap) res :
  h !! d = Some (Obj props) →
  returned h (JRef d) jsToSql = Some res →
  ∃ cols,
    setCols res = String.concat ", " cols ∧
    length cols = length (values res) ∧
    (∀ i fr, cols !! i = Some fr → ∃ col, fr = fragment col (i + 1)) ∧
    (∀ i j, placeholder (i + 1) = placeholder (j + 1) → i = j) ∧
    (∀ i, i < length cols →
          placeholder (i + 1) ≠ placeholder (length (values res) + 1)).
Proof.
  intros Hd Hres.
  destruct (returned_inv _ _ _ _ _ Hd Hres)
    as (Hne & m & mprops & names & -> & Hm & Hnames & ->).
  exists (fragments_from 0 names). cbn [setCols values].
  assert (Hlen : length (fragments_from 0 names) = length props.*2).
  { by rewrite length_fragments_from, (length_columns _ _ _ Hnames), !length_fmap. }
  split; [done|]. split; [done|]. split.
  { intros i fr Hfr. unfold fragments_from in Hfr.
    rewrite list_lookup_imap in Hfr.
    destruct (names !! i) as [col|]; [|done]. exists col. by simplify_eq/=. }
  split.
  { intros i j Hij%placeholder_inj. lia. }
  intros i Hi Heq%placeholder_inj. lia.
Qed.

Lemma placeholders_are_distinct_witness :
  heap_company !! 1%positive = Some (Obj data_company) ∧
  returned heap_company (JRef 1) (JRef 2) =
    Some {| setCols := String.concat ", "
                         [fragment "num_employees" 1; fragment "logo_url" 2];
            values := [JNum 10; JStr "x.png"] |} ∧
  ∃ cols,
    String.concat ", " [fragment "num_employees" 1; fragment "logo_url" 2]
      = String.concat ", " cols ∧
    length cols = 2 ∧
    (∀ i fr, cols !! i = Some fr → ∃ col, fr = fragment col (i + 1)) ∧
    (∀ i j, placeholder (i + 1) = placeholder (j + 1) → i = j) ∧
    (∀ i, i < length cols → placeholder (i + 1) ≠ placeholder (2 + 1)).
Proof.
  assert (Hd : heap_company !! 1%positive = Some (Obj data_company)) by reflexivity.
  assert (Hres : returned heap_company (JRef 1) (JRef 2) =
    Some {| setCols := String.concat ", "
                         [fragment "num_employees" 1; fragment "logo_url" 2];
            values := [JNum 10; JStr "x.png"] |}) by (vm_compute; reflexivity).
  do 2 (split; [assumption|]).
  exact (placeholders_are_distinct 1%positive _ _ _ _ Hd Hres).
Defined.

(** X8.  A mapping entry that is truthy but not a string is used as the
    column name too, converted to a string: [true], or a non-zero integer in
    the safe range.  On a data object with at least one key, none of them
    the name of an inherited property, and a plain mapping object whose
    values are primitives, the Numbers among them safe integers: for every
    key whose entry is truthy, the fragment uses the string conversion of
    the entry. *)
Theorem truthy_entry_names_the_column d m props mprops (h : heap) :
  h !! d = Some (Obj props) → props ≠ [] → ordinary_keys props →
  h !! m = Some (Obj mprops) → primitive_values mprops → safe_values mprops →
  ∃ res cols,
    returned h (JRef d) (JRef m) = Some res ∧
    setCols res = String.concat ", " cols ∧
    ∀ i k v w,
      props !! i = Some (k, v) →
      own_lookup k mprops = Some w → ToBoolean w = true →
      ∃ c, ToString w = Some c ∧ cols !! i = Some (fragment c (i + 1)).
Proof.
  intros Hd Hne Hord Hm Hprim _.
  destruct (returned_plain _ _ _ _ _ Hd Hne Hord Hm Hprim) as (names & Hnames & ->).
  eexists _, (fragments_from 0 names). split; [done|]. split; [done|].
  intros i k v w Hi Hk Hw.
  destruct (fragment_at _ _ _ _ _ _ Hnames Hi) as (col & Hcol & Hfr).
  rewrite (column_truthy _ _ _ Hk Hw) in Hcol. eauto.
Qed.

Lemma truthy_entry_names_the_column_witness :
  heap_odd !! 1%positive = Some (Obj data_aliya) ∧ data_aliya ≠ [] ∧
  ordinary_keys data_aliya ∧
  heap_odd !! 2%positive = Some (Obj mapping_odd) ∧ primitive_values mapping_odd ∧
  safe_values mapping_odd ∧
  ∃ res cols,
    returned heap_odd (JRef 1) (JRef 2) = Some res ∧
    setCols res = String.concat ", " cols ∧
    ∀ i k v w,
      data_aliya !! i = Some (k, v) →
      own_lookup k mapping_odd = Some w → ToBoolean w = true →
      ∃ c, ToString w = Some c ∧ cols !! i = Some (fragment c (i + 1)).
Proof.
  assert (Hd : heap_odd !! 1%positive = Some (Obj data_aliya)) by reflexivity.
  assert (Hm : heap_odd !! 2%positive = Some (Obj mapping_odd)) by reflexivity.
  assert (Hne : data_aliya ≠ []) by discriminate.
  assert (Hprim : primitive_values mapping_odd) by repeat constructor.
  assert (Hord : ordinary_keys data_aliya) by repeat constructor.
  assert (Hsafe : safe_values mapping_odd) by repeat constructor.
  do 6 (split; [assumption|]).
  exact (truthy_entry_names_the_column 1%positive 2%positive _ _ _
           Hd Hne Hord Hm Hprim Hsafe).
Defined.

(** The entries of [mapping_odd] as column names. *)
Example scenario_odd :
  returned heap_odd (JRef 1) (JRef 2) =
    Some {| setCols := String.concat ", " [fragment "7" 1; fragment "true" 2];
            values := [JStr "Aliya"; JNum 32] |}.
Proof. vm_compute. reflexivity. Qed.

(** X9.  Values are handed over, not copied: where the data object holds a
    reference to another object, [values] holds the same reference at the
    same position, and the object it refers to is unchanged after the
    call. *)
Theorem values_share_references d props jsToSql (h : heap) r h' :
  h !! d = Some (Obj props) →
  sqlForPartialUpdate (JRef d) jsToSql h = Normal r h' →
  ∃ res,
    read_result h' r = Some res ∧
    ∀ i k l c,
      props !! i = Some (k, JRef l) → h !! l = Some c →
      values res !! i = Some (JRef l) ∧ h' !! l = Some c.
Proof.
  intros Hd Hrun.
  destruct (sqlForPartialUpdate_Normal_inv _ _ _ _ _ _ Hd Hrun)
    as (_ & m & mprops & names & -> & _ & _ & Hread).
  eexists. split; [exact Hread|]. cbn [values].
  intros i k l c Hi Hl. split.
  - by rewrite list_lookup_fmap, Hi.
  - pose proof (preserves_sqlForPartialUpdate (JRef d) (JRef m) h) as Hsub.
    rewrite Hrun in Hsub. by apply (lookup_weaken h h').
Qed.

Lemma values_share_references_witness :
  heap_nested !! 1%positive = Some (Obj data_nested) ∧
  sqlForPartialUpdate (JRef 1) (JRef 2) heap_nested
    = Normal 7%positive heap_nested_after ∧
  ∃ res,
    read_result heap_nested_after 7%positive = Some res ∧
    ∀ i k l c,
      data_nested !! i = Some (k, JRef l) → heap_nested !! l = Some c →
      values res !! i = Some (JRef l) ∧ heap_nested_after !! l = Some c.
Proof.
  assert (Hd : heap_nested !! 1%positive = Some (Obj data_nested)) by reflexivity.
  assert (Hrun : sqlForPartialUpdate (JRef 1) (JRef 2) heap_nested
                 = Normal 7%positive heap_nested_after) by (vm_compute; reflexivity).
  do 2 (split; [assumption|]).
  exact (values_share_references 1%positive _ _ _ _ _ Hd Hrun).
Defined.
